(** * Lotto strategy engine: followers and split pairs

    A shallow embedding of the analysis core of [lotto_analyzer.py]
    ([get_row_numbers], [get_next_numbers_list], [analyze_patterns],
    [analyze_splits] and the ranking calls of the main flow), together with
    the properties the specification states about it, and of the code around
    it ([clean_data] and the main flow from the parsed current draw on), with
    further properties read off the code.

    Conventions of the embedding:
    - a frame holds integer columns only (no float or object cells): a
      cell is a numpy [int64], modelled as a [Z]; the arithmetic the code
      does on cells ([a + b], [a - b], [abs]) is numpy's, which wraps
      around at 64 bits, and the wrap-around is written out ([wrap64]);
      the numbers of the current draw are Python integers, exact;
    - a pandas frame is a list of column labels and a list of rows of
      values; a row read out with [iloc] carries the column labels as its
      index; a label lookup that pandas answers with [KeyError] (and a
      position lookup it answers with [IndexError]) is [None]; a label
      that several columns carry is answered with a [Series] instead of a
      number, on which every reader of this program raises, and is [None]
      as well;
    - a Python [set] of integers is a [gset Z];
    - a [collections.Counter] is an insertion-ordered association list,
      because [most_common] breaks ties by insertion order;
    - the dictionary [split_stats] is a [gmap] from targets to counters. *)

From stdpp Require Import gmap strings list fin_maps sorting pretty.

#[local] Set Warnings "-clear-no-such-hyp".

(** ** Game variants *)

(** The side bar radio button yields one of two strings,
    ["UK 49s (6 + Bonus)"] and ["SA Daily Lotto (5 Numbers)"]. *)
Inductive game_type := UK49 | SADaily.

#[global] Instance game_type_eq_dec : EqDecision game_type.
Proof. solve_decision. Defined.

(** ** Frames and rows *)

Record Series := { index : list string; vals : list Z }.

Record DataFrame := { columns : list string; values : list (list Z) }.

(** [len(df)] *)
Definition len (df : DataFrame) : nat := length (values df).

(** [df.iloc[i]] *)
Definition iloc (df : DataFrame) (i : nat) : option Series :=
  r ← values df !! i; Some {| index := columns df; vals := r |}.

(** Position of a label in an index. *)
Fixpoint get_loc (name : string) (cols : list string) : option nat :=
  match cols with
  | [] => None
  | c :: cs => if decide (c = name) then Some 0 else S <$> get_loc name cs
  end.

(** Number of occurrences of [k] in [l]. *)
Definition occ {K : Type} `{EqDecision K} (k : K) (l : list K) : nat :=
  length (filter (λ x, x = k) l).

(** [row[name]], read as a number. A label the index does not have is a
    [KeyError]. For a label that several columns carry pandas returns the
    [Series] of their cells, and every place of the program that reads a
    cell raises on it: the set comprehension and [nums.add] of
    [get_row_numbers] ([TypeError], a [Series] is unhashable), [sorted]
    in [get_next_numbers_list] and the [if] on [== bonus] in both scans
    ([ValueError], the truth value of a [Series] is ambiguous). *)
Definition getitem (row : Series) (name : string) : option Z :=
  pos ← get_loc name (index row);
  if decide (occ name (index row) = 1) then vals row !! pos else None.

(** ** Arithmetic on cells *)

(** The cells of an integer frame are numpy [int64] scalars. *)
Definition int64 (z : Z) : Prop := (- 2 ^ 63 ≤ z < 2 ^ 63)%Z.

(** The [int64] that a result [z] wraps around to. *)
Definition wrap64 (z : Z) : Z := ((z + 2 ^ 63) `mod` 2 ^ 64 - 2 ^ 63)%Z.

(** [a + b], [a - b] and [abs(a)] on [int64] scalars. *)
Definition add64 (a b : Z) : Z := wrap64 (a + b).
Definition sub64 (a b : Z) : Z := wrap64 (a - b).
Definition abs64 (a : Z) : Z := wrap64 (Z.abs a).

(** [range(a, b)] *)
Definition range (a b : nat) : list nat := seq a (b - a).

(** [f'N{k}'] *)
Definition N_col (k : nat) : string := "N" +:+ pretty k.

(** [sorted(l)] on integers. *)
Definition sorted (l : list Z) : list Z := merge_sort Z.le l.

(** [for x in l: s = f(s, x)], where the body may raise. *)
Fixpoint for_each {S A : Type} (f : S → A → option S) (s : S) (l : list A)
  : option S :=
  match l with
  | [] => Some s
  | x :: l' => s' ← f s x; for_each f s' l'
  end.

(** ** Counters *)

Section Counter.
Context {K : Type} `{EqDecision K}.

(** [c[k]], which is [0] for a key that was never counted. *)
Fixpoint counter_get (c : list (K * nat)) (k : K) : nat :=
  match c with
  | [] => 0
  | (k', n) :: c' => if decide (k' = k) then n else counter_get c' k
  end.

(** [c[k] += 1]: an existing key keeps its place, a new key goes last. *)
Fixpoint counter_incr (k : K) (c : list (K * nat)) : list (K * nat) :=
  match c with
  | [] => [(k, 1)]
  | (k', n) :: c' =>
      if decide (k' = k) then (k', S n) :: c' else (k', n) :: counter_incr k c'
  end.

(** [c.update(l)] for an iterable of keys. *)
Definition update (c : list (K * nat)) (l : list K) : list (K * nat) :=
  foldl (λ c k, counter_incr k c) c l.

(** Stable insertion into a list sorted by count, highest first: the new
    entry goes in front of the first entry whose count is not higher. *)
Fixpoint insert_desc (e : K * nat) (l : list (K * nat)) : list (K * nat) :=
  match l with
  | [] => [e]
  | e' :: l' =>
      if decide (e.2 < e'.2) then e' :: insert_desc e l' else e :: l
  end.

(** [sorted(c.items(), key=itemgetter(1), reverse=True)] *)
Definition sorted_desc (c : list (K * nat)) : list (K * nat) :=
  foldr insert_desc [] c.

(** [c.most_common(n)] *)
Definition most_common (n : nat) (c : list (K * nat)) : list (K * nat) :=
  take n (sorted_desc c).
End Counter.

Abbreviation Counter K := (list (K * nat)).

(** ** Helper functions of the source *)

(** [get_row_numbers(row, game_type)] *)
Definition get_row_numbers (row : Series) (gt : game_type) : option (gset Z) :=
  match gt with
  | SADaily =>
      nums ← mapM (λ k, getitem row (N_col k)) (range 1 6);
      Some (list_to_set nums)
  | UK49 =>
      nums ← mapM (λ k, getitem row (N_col k)) (range 1 7);
      if decide ("Bonus" ∈ index row)
      then b ← getitem row "Bonus"; Some (list_to_set nums ∪ {[ b ]})
      else Some (list_to_set nums)
  end.

(** [get_next_numbers_list(df, index, game_type)] *)
Definition get_next_numbers_list (df : DataFrame) (i : nat) (gt : game_type)
  : option (list Z) :=
  if decide (len df ≤ i + 1) then Some []
  else
    row ← iloc df (i + 1);
    match gt with
    | SADaily => sorted <$> mapM (λ k, getitem row (N_col k)) (range 1 6)
    | UK49 => sorted <$> mapM (λ k, getitem row (N_col k)) (range 1 7)
    end.

(** [combinations(l, 2)] *)
Fixpoint combinations2 (l : list Z) : list (Z * Z) :=
  match l with
  | [] => []
  | x :: xs => map (pair x) xs ++ combinations2 xs
  end.

(** ** Frequency analysis *)

Definition match_threshold : nat := 3.

(** The body of the loop of [analyze_patterns], for one row index. The
    counter [matches_found] is never read and is left out. *)
Definition patterns_body (df : DataFrame) (current_numbers : list Z)
    (gt : game_type) (predictions : Counter Z) (i : nat)
  : option (Counter Z) :=
  let current_set : gset Z := list_to_set current_numbers in
  row ← iloc df i;
  row_set ← get_row_numbers row gt;
  predictions ←
    (if decide (match_threshold ≤ size (current_set ∩ row_set))
     then nxt ← get_next_numbers_list df i gt; Some (update predictions nxt)
     else Some predictions);
  if decide (gt = UK49 ∧ 6 < length current_numbers) then
    bonus ← last current_numbers;
    if decide ("Bonus" ∈ columns df) then
      row ← iloc df i;
      b ← getitem row "Bonus";
      if decide (b = bonus) then
        nxt ← get_next_numbers_list df i gt;
        let predictions := update predictions nxt in
        nxt ← get_next_numbers_list df i gt;
        Some (update predictions nxt)
      else Some predictions
    else Some predictions
  else Some predictions.

(** [analyze_patterns(df, current_numbers, game_type)] *)
Definition analyze_patterns (df : DataFrame) (current_numbers : list Z)
    (gt : game_type) : option (Counter Z) :=
  for_each (patterns_body df current_numbers gt) [] (range 0 (len df - 1)).

(** ** Split analysis *)

Inductive relation_kind := Diff | Sum.

#[global] Instance relation_kind_eq_dec : EqDecision relation_kind.
Proof. solve_decision. Defined.

Definition split_key : Type := Z * Z * relation_kind.

(** [{t: Counter() for t in top_targets}] *)
Definition init_stats (top_targets : list Z) : gmap Z (Counter split_key) :=
  foldl (λ m t, <[t := []]> m) ∅ top_targets.

(** [split_stats[t][key] += 1] *)
Definition bump (t : Z) (key : split_key)
    (split_stats : gmap Z (Counter split_key))
  : option (gmap Z (Counter split_key)) :=
  c ← split_stats !! t; Some (<[t := counter_incr key c]> split_stats).

(** The two checks made for one pair under one target. *)
Definition check_pair (t : Z) (split_stats : gmap Z (Counter split_key))
    (p : Z * Z) : option (gmap Z (Counter split_key)) :=
  let '(a, b) := p in
  split_stats ←
    (if decide (abs64 (sub64 a b) = t) then bump t (a, b, Diff) split_stats
     else Some split_stats);
  if decide (add64 a b = t) then bump t (a, b, Sum) split_stats
  else Some split_stats.

(** [for t in top_targets: for (a, b) in next_pairs: ...] *)
Definition scan_pairs (top_targets : list Z) (next_pairs : list (Z * Z))
    (split_stats : gmap Z (Counter split_key))
  : option (gmap Z (Counter split_key)) :=
  for_each (λ m t, for_each (check_pair t) m next_pairs) split_stats top_targets.

(** The value of [is_match] for one row index. *)
Definition is_match (df : DataFrame) (current_numbers : list Z)
    (gt : game_type) (i : nat) : option bool :=
  let current_set : gset Z := list_to_set current_numbers in
  row ← iloc df i;
  row_set ← get_row_numbers row gt;
  let is_match := bool_decide (match_threshold ≤ size (current_set ∩ row_set)) in
  if decide (gt = UK49 ∧ 6 < length current_numbers) then
    if decide ("Bonus" ∈ columns df) then
      row ← iloc df i;
      b ← getitem row "Bonus";
      cur_last ← last current_numbers;
      if decide (b = cur_last) then Some true else Some is_match
    else Some is_match
  else Some is_match.

(** The body of the loop of [analyze_splits], for one row index. *)
Definition splits_body (df : DataFrame) (current_numbers : list Z)
    (top_targets : list Z) (gt : game_type)
    (split_stats : gmap Z (Counter split_key)) (i : nat)
  : option (gmap Z (Counter split_key)) :=
  m ← is_match df current_numbers gt i;
  if m : bool then
    next_nums ← get_next_numbers_list df i gt;
    let next_pairs := combinations2 next_nums in
    scan_pairs top_targets next_pairs split_stats
  else Some split_stats.

(** [analyze_splits(df, current_numbers, top_targets, game_type)] *)
Definition analyze_splits (df : DataFrame) (current_numbers : list Z)
    (top_targets : list Z) (gt : game_type)
  : option (gmap Z (Counter split_key)) :=
  for_each (splits_body df current_numbers top_targets gt)
    (init_stats top_targets) (range 0 (len df - 1)).

(** ** The main flow's ranking calls *)

(** [[n for n, c in raw_predictions.most_common(7)]] *)
Definition top_targets_of (raw_predictions : Counter Z) : list Z :=
  (most_common 7 raw_predictions).*1.

(** [split_data[target].most_common(3)] *)
Definition splits_of (split_data : gmap Z (Counter split_key)) (target : Z)
  : option (list (split_key * nat)) :=
  most_common 3 <$> split_data !! target.

(** ** The specification's view of the data *)

(** Number of primary numbers of a draw. *)
Definition arity (gt : game_type) : nat :=
  match gt with SADaily => 5 | UK49 => 6 end.

(** The primary-number labels a variant reads. *)
Definition N_cols (gt : game_type) : list string :=
  N_col <$> range 1 (S (arity gt)).

(** A draw as the specification has it: primary numbers, and a bonus number
    when the variant and the dataset have one. *)
Record Draw := { primary : list Z; bonus : option Z }.

(** The draw stored in a row. *)
Definition draw_of (row : Series) (gt : game_type) : option Draw :=
  prim ← mapM (λ k, getitem row (N_col k)) (range 1 (S (arity gt)));
  match gt with
  | SADaily => Some {| primary := prim; bonus := None |}
  | UK49 =>
      if decide ("Bonus" ∈ index row)
      then b ← getitem row "Bonus"; Some {| primary := prim; bonus := Some b |}
      else Some {| primary := prim; bonus := None |}
  end.

(** DrawSet: the set-of-numbers view, bonus included. *)
Definition DrawSet (d : Draw) : gset Z :=
  list_to_set (primary d) ∪
  match bonus d with Some b => {[ b ]} | None => ∅ end.

(** Rule 1: at least three numbers in common with the current draw. *)
Definition intersection_rule (d : Draw) (currentDraw : list Z) : Prop :=
  3 ≤ size (DrawSet d ∩ list_to_set currentDraw).

(** Rule 2: variant B, a current draw that supplies a bonus, and the same
    bonus number in the historical draw. *)
Definition bonus_rule (d : Draw) (currentDraw : list Z) (gt : game_type)
  : Prop :=
  gt = UK49 ∧ 6 < length currentDraw ∧
  is_Some (bonus d) ∧ bonus d = last currentDraw.

(** SimilarityMatcher. *)
Definition matches (d : Draw) (currentDraw : list Z) (gt : game_type) : Prop :=
  intersection_rule d currentDraw ∨ bonus_rule d currentDraw gt.

#[global] Instance intersection_rule_dec d cur : Decision (intersection_rule d cur).
Proof. unfold intersection_rule. apply _. Defined.

#[global] Instance bonus_rule_dec d cur gt : Decision (bonus_rule d cur gt).
Proof. unfold bonus_rule. apply _. Defined.

#[global] Instance matches_dec d cur gt : Decision (matches d cur gt).
Proof. unfold matches. apply _. Defined.

(** Weight one historical row gives to each occurrence of a follower. *)
Definition weight (d : Draw) (currentDraw : list Z) (gt : game_type) : nat :=
  (if decide (intersection_rule d currentDraw) then 1 else 0) +
  (if decide (bonus_rule d currentDraw gt) then 2 else 0).

(** [n] successive [update]s with the same list. *)
Definition update_n {K : Type} `{EqDecision K} (n : nat) (c : Counter K)
    (l : list K) : Counter K :=
  Nat.iter n (λ c, update c l) c.

(** Frames every row of which can be read: each primary-number label is
    carried by exactly one column, in variant B no two columns are
    labelled ["Bonus"], and the rows are as long as the column list. *)
Definition wf_frame (df : DataFrame) (gt : game_type) : Prop :=
  Forall (λ c, occ c (columns df) = 1) (N_cols gt) ∧
  (gt = UK49 → occ "Bonus" (columns df) ≤ 1) ∧
  Forall (λ r, length r = length (columns df)) (values df).

#[global] Instance wf_frame_dec df gt : Decision (wf_frame df gt).
Proof. unfold wf_frame. apply _. Defined.

(** A number so far inside the [int64] range that the sum and the
    difference of two such numbers do not wrap around. Lottery numbers
    are. *)
Definition small (z : Z) : Prop := (- 2 ^ 62 ≤ z < 2 ^ 62)%Z.

#[global] Instance small_dec z : Decision (small z).
Proof. unfold small. apply _. Defined.

(** Frames all cells of which are small. *)
Definition small_cells (df : DataFrame) : Prop :=
  Forall (Forall small) (values df).

#[global] Instance small_cells_dec df : Decision (small_cells df).
Proof. unfold small_cells. apply _. Defined.

(** ** The frequency scan as a stream of followers *)

(** The numbers one history row feeds into the counter, in order. *)
Definition followers_of (df : DataFrame) (cur : list Z) (gt : game_type)
    (i : nat) : list Z :=
  match iloc df i ≫= (λ row, draw_of row gt), get_next_numbers_list df i gt with
  | Some d, Some nxt => concat (replicate (weight d cur gt) nxt)
  | _, _ => []
  end.

(** All numbers fed into the counter, in the order of the scan. *)
Definition followers (df : DataFrame) (cur : list Z) (gt : game_type) : list Z :=
  concat (followers_of df cur gt <$> range 0 (len df - 1)).

(** ** The split scan as a stream of events *)

(** One increment of the split statistics: the target and the key counted
    under it. *)
Definition event : Type := Z * split_key.

(** The increments one pair causes under one target. *)
Definition pair_events (t : Z) (p : Z * Z) : list event :=
  (if decide (abs64 (sub64 p.1 p.2) = t) then [(t, (p.1, p.2, Diff))] else []) ++
  (if decide (add64 p.1 p.2 = t) then [(t, (p.1, p.2, Sum))] else []).

(** The increments one successor draw causes, target by target. *)
Definition scan_events (top_targets : list Z) (next_pairs : list (Z * Z))
  : list event :=
  concat ((λ t, concat (pair_events t <$> next_pairs)) <$> top_targets).

(** The increments one history row causes. *)
Definition row_events (df : DataFrame) (cur top_targets : list Z)
    (gt : game_type) (i : nat) : list event :=
  match is_match df cur gt i, get_next_numbers_list df i gt with
  | Some true, Some nxt => scan_events top_targets (combinations2 nxt)
  | _, _ => []
  end.

(** All increments of a run, in the order of the scan. *)
Definition split_events (df : DataFrame) (cur top_targets : list Z)
    (gt : game_type) : list event :=
  concat (row_events df cur top_targets gt <$> range 0 (len df - 1)).

(** The keys counted under one target, in order. *)
Definition keys_for (t : Z) (es : list event) : list split_key :=
  (filter (λ e, e.1 = t) es).*2.

(** [m'] is [m] after the increments [es]; no key of the dictionary is
    added or removed. *)
Definition applies (m : gmap Z (Counter split_key)) (es : list event)
    (m' : gmap Z (Counter split_key)) : Prop :=
  ∀ t, m' !! t = (λ c, update c (keys_for t es)) <$> m !! t.

(** Every target has an entry. *)
Definition covers (top_targets : list Z) (m : gmap Z (Counter split_key))
  : Prop :=
  ∀ t, t ∈ top_targets → is_Some (m !! t).

(** ** Ranking *)

(** Keys in the order in which they first occur. *)
Definition first_seen {K : Type} `{EqDecision K} (l : list K) : list K :=
  foldl (λ acc x, if decide (x ∈ acc) then acc else acc ++ [x]) [] l.

(** Higher count first. *)
Definition by_count_desc {K : Type} : relation (K * nat) := λ x y, y.2 ≤ x.2.

(** [r] ranks the entries of the counter [c]: the same entries, by count
    descending, and entries of equal count in the order the counter has
    them. *)
Definition ranks {K : Type} (c r : Counter K) : Prop :=
  r ≡ₚ c ∧ Sorted by_count_desc r ∧
  ∀ n : nat, filter (λ e, e.2 = n) r = filter (λ e, e.2 = n) c.

(** ** What a split result reports *)

(** An entry for [key] appears in the counter of target [t]. *)
Definition reported (m : gmap Z (Counter split_key)) (t : Z) (key : split_key)
  : Prop :=
  ∃ c, m !! t = Some c ∧ key ∈ c.*1.

(** The pair [(a, b)] is among the pairs of the ascending NextNumbers of a
    scanned row that matches, and [t] is one of the targets. *)
Definition pair_of_matching_row (df : DataFrame) (cur top_targets : list Z)
    (gt : game_type) (t a b : Z) : Prop :=
  t ∈ top_targets ∧
  ∃ i nxt, i + 1 < len df ∧ is_match df cur gt i = Some true ∧
    get_next_numbers_list df i gt = Some nxt ∧ (a, b) ∈ combinations2 nxt.

(** ** Sample data *)

Definition cols5 : list string := ["N1"; "N2"; "N3"; "N4"; "N5"].
Definition cols7 : list string := ["N1"; "N2"; "N3"; "N4"; "N5"; "N6"; "Bonus"].
Definition cols6 : list string := ["N1"; "N2"; "N3"; "N4"; "N5"; "N6"].

Definition history5 : DataFrame :=
  {| columns := cols5;
     values := [[1; 2; 3; 4; 5]; [2; 3; 4; 5; 6]; [3; 4; 5; 6; 7]]%Z |}.

Definition current5 : list Z := [2; 3; 4; 5; 9]%Z.

(** A variant-B history. Row 0 shares 1, 2, 3 and the bonus 7 with
    [current7]; row 2 shares 1, 2, 3 and 30 but has another bonus; rows 1
    and 3 hold the same six primary numbers. *)
Definition history7 : DataFrame :=
  {| columns := cols7;
     values := [[1; 2; 3; 4; 5; 6; 7]; [10; 11; 12; 13; 14; 15; 16];
                [1; 2; 3; 20; 21; 22; 30]; [15; 14; 13; 12; 11; 10; 40];
                [41; 42; 43; 44; 45; 46; 47]]%Z |}.

Definition current7 : list Z := [1; 2; 3; 30; 31; 32; 7]%Z.

Definition row7_0 : Series :=
  {| index := cols7; vals := [1; 2; 3; 4; 5; 6; 7]%Z |}.
Definition draw7_0 : Draw :=
  {| primary := [1; 2; 3; 4; 5; 6]%Z; bonus := Some 7%Z |}.
Definition next7 : list Z := [10; 11; 12; 13; 14; 15]%Z.

(** The same history stored without a bonus column. *)
Definition history6 : DataFrame :=
  {| columns := cols6;
     values := [[1; 2; 3; 4; 5; 6]; [10; 11; 12; 13; 14; 15];
                [1; 2; 3; 20; 21; 22]; [15; 14; 13; 12; 11; 10]]%Z |}.

(** A variant-A history no row of which resembles [current5]. *)
Definition history_far : DataFrame :=
  {| columns := cols5;
     values := [[11; 12; 13; 14; 15]; [21; 22; 23; 24; 25];
                [31; 32; 33; 34; 35]]%Z |}.









(** A variant-A history in which the successor of the matching row 0 holds
    numbers that are sums and differences of one another. *)
Definition history_fib : DataFrame :=
  {| columns := cols5;
     values := [[1; 2; 3; 4; 5]; [2; 3; 5; 8; 13]; [20; 21; 22; 23; 24]]%Z |}.

Definition current_fib : list Z := [1; 2; 3; 30; 31]%Z.

(** ** Whole-run views *)

(** Weight the history row [i] carries in the frequency scan; 0 for a row
    that cannot be read. *)
Definition row_weight (df : DataFrame) (cur : list Z) (gt : game_type)
    (i : nat) : nat :=
  match iloc df i ≫= (λ row, draw_of row gt) with
  | Some d => weight d cur gt
  | None => 0
  end.

(** NextNumbers(i); empty when there is no successor or it cannot be read. *)
Definition NextNumbers (df : DataFrame) (i : nat) (gt : game_type) : list Z :=
  default [] (get_next_numbers_list df i gt).

(** The primary numbers of a row, as read by both helper functions. *)
Definition primary_of (row : Series) (gt : game_type) : option (list Z) :=
  mapM (λ k, getitem row (N_col k)) (range 1 (S (arity gt))).

(** How often the pair [(a, b)] occurs among the pairs of the successors of
    the matching rows of a scan. *)
Definition pair_hits (df : DataFrame) (cur : list Z) (gt : game_type)
    (a b : Z) : nat :=
  sum_list ((λ i, match is_match df cur gt i with
                  | Some true => occ (a, b) (combinations2 (NextNumbers df i gt))
                  | _ => 0
                  end) <$> range 0 (len df - 1)).

(** A history with further draws appended. *)
Definition extend (df : DataFrame) (later : list (list Z)) : DataFrame :=
  {| columns := columns df; values := values df ++ later |}.

(** The test a split entry of relation [rel] has passed, in the arithmetic
    of the cells. *)
Definition relation_holds (rel : relation_kind) (a b t : Z) : Prop :=
  match rel with
  | Diff => abs64 (sub64 a b) = t
  | Sum => add64 a b = t
  end.

#[global] Instance relation_holds_dec rel a b t :
  Decision (relation_holds rel a b t).
Proof. destruct rel; simpl; apply _. Defined.

(** The equality the specification states for a split entry, in exact
    integers: [|a - b| = t], [a + b = t]. *)
Definition relation_exact (rel : relation_kind) (a b t : Z) : Prop :=
  match rel with
  | Diff => Z.abs (a - b) = t
  | Sum => (a + b)%Z = t
  end.

#[global] Instance relation_exact_dec rel a b t :
  Decision (relation_exact rel a b t).
Proof. destruct rel; simpl; apply _. Defined.

(** ** The main flow once the button is pressed *)

(** What the right-hand column shows for one target: its best splits, or
    the line saying that there is no strong split pattern. *)
Inductive panel :=
  | BestSplits (splits : list (split_key * nat))
  | NoStrongPattern.

(** What a run shows: the error message of the enclosing [try], the warning
    that no historical patterns were found, or the ranked targets with one
    panel per target. *)
Inductive outcome :=
  | Failed
  | NoPatternsFound
  | Shown (ranks : list (Z * nat)) (panels : list (Z * panel)).

(** One pass of [for target in top_targets] in the right-hand column. *)
Definition show_target (split_data : gmap Z (Counter split_key)) (target : Z)
  : option (Z * panel) :=
  splits ← splits_of split_data target;
  Some (target, match splits with
                | [] => NoStrongPattern
                | _ => BestSplits splits
                end).

(** The body of [if user_input:], from the parsed [current_nums] on. *)
Definition run_split_analysis (df_clean : DataFrame) (current_nums : list Z)
    (gt : game_type) : outcome :=
  match analyze_patterns df_clean current_nums gt with
  | None => Failed
  | Some raw_predictions =>
      match raw_predictions with
      | [] => NoPatternsFound
      | _ =>
          let top_targets := top_targets_of raw_predictions in
          match analyze_splits df_clean current_nums top_targets gt with
          | None => Failed
          | Some split_data =>
              match mapM (show_target split_data) top_targets with
              | None => Failed
              | Some panels => Shown (most_common 7 raw_predictions) panels
              end
          end
      end
  end.

(** ** Loading: standardising the columns *)

(** A column of an uploaded frame: its label, whether its dtype is numeric,
    and its cells. The cell type is left open: cleaning never looks at a
    cell. *)
Record Column (C : Type) :=
  { label : string; numeric : bool; cells : list C }.
Arguments label {C} _.
Arguments numeric {C} _.
Arguments cells {C} _.

(** An uploaded frame: its columns, in order, and the number of rows. *)
Record RawFrame (C : Type) :=
  { raw_columns : list (Column C); nrows : nat }.
Arguments raw_columns {C} _.
Arguments nrows {C} _.

(** [df.select_dtypes(include=['number']).columns.tolist()] *)
Definition select_dtypes_number {C} (df : RawFrame C) : list string :=
  label <$> filter (λ c, numeric c = true) (raw_columns df).

(** [{numeric_cols[i]: f'N{i+1}' for i in range(n)}] *)
Definition N_rename_map (numeric_cols : list string) (n : nat)
  : option (gmap string string) :=
  for_each (λ m i, name ← numeric_cols !! i; Some (<[name := N_col (i + 1)]> m))
    ∅ (range 0 n).

(** A column under [rename]: a label the map knows is replaced. *)
Definition relabel {C} (new : string) (c : Column C) : Column C :=
  {| label := new; numeric := numeric c; cells := cells c |}.

(** [df.rename(columns=rename_map)] *)
Definition rename {C} (df : RawFrame C) (rename_map : gmap string string)
  : RawFrame C :=
  {| raw_columns :=
       (λ c, relabel (default (label c) (rename_map !! label c)) c)
       <$> raw_columns df;
     nrows := nrows df |}.

(** [df[names]] for a list of labels: for each label in turn, every column
    that carries it; a label no column carries is a [KeyError]. *)
Definition select {C} (df : RawFrame C) (names : list string)
  : option (RawFrame C) :=
  picked ← mapM (λ name,
                   match filter (λ c, label c = name) (raw_columns df) with
                   | [] => None
                   | cs => Some cs
                   end) names;
  Some {| raw_columns := concat picked; nrows := nrows df |}.

(** [clean_data(df, game_type)]; the unused [cols] is left out. *)
Definition clean_data {C} (df : RawFrame C) (gt : game_type)
  : option (RawFrame C) :=
  match gt with
  | SADaily =>
      let numeric_cols := select_dtypes_number df in
      if decide (5 ≤ length numeric_cols) then
        rename_map ← N_rename_map numeric_cols 5;
        let df := rename df rename_map in
        select df ["N1"; "N2"; "N3"; "N4"; "N5"]
      else Some df
  | UK49 =>
      let numeric_cols := select_dtypes_number df in
      if decide (7 ≤ length numeric_cols) then
        rename_map ← N_rename_map numeric_cols 6;
        name ← numeric_cols !! 6;
        let rename_map := <[name := "Bonus"]> rename_map in
        let df := rename df rename_map in
        select df ["N1"; "N2"; "N3"; "N4"; "N5"; "N6"; "Bonus"]
      else Some df
  end.

(** The labels a cleaned frame of the variant has. *)
Definition clean_labels (gt : game_type) : list string :=
  match gt with
  | SADaily => ["N1"; "N2"; "N3"; "N4"; "N5"]
  | UK49 => ["N1"; "N2"; "N3"; "N4"; "N5"; "N6"; "Bonus"]
  end.

(** The numeric columns cleaning keeps: the first 5, or the first 7. *)
Definition kept {C} (df : RawFrame C) (gt : game_type) : list (Column C) :=
  take (length (clean_labels gt)) (filter (λ c, numeric c = true) (raw_columns df)).

(** The frame with integer cells as the analysis reads it, row by row. *)
Definition frame_of (df : RawFrame Z) : option DataFrame :=
  rows ← mapM (λ i, mapM (λ c, cells c !! i) (raw_columns df))
         (seq 0 (nrows df));
  Some {| columns := label <$> raw_columns df; values := rows |}.

(** An upload with a date, six main numbers, the bonus and a jackpot. *)
Definition upload49 : RawFrame Z :=
  {| raw_columns :=
       [ {| label := "Date"; numeric := false; cells := [0; 0; 0]%Z |};
         {| label := "A"; numeric := true; cells := [1; 10; 1]%Z |};
         {| label := "B"; numeric := true; cells := [2; 11; 2]%Z |};
         {| label := "C"; numeric := true; cells := [3; 12; 3]%Z |};
         {| label := "D"; numeric := true; cells := [4; 13; 20]%Z |};
         {| label := "E"; numeric := true; cells := [5; 14; 21]%Z |};
         {| label := "F"; numeric := true; cells := [6; 15; 22]%Z |};
         {| label := "B1"; numeric := true; cells := [7; 16; 30]%Z |};
         {| label := "Jackpot"; numeric := true; cells := [100; 200; 300]%Z |} ];
     nrows := 3 |}.

(** Two rows of values under the same labels that store the same draw: the
    same bonus cell, and the same primary numbers up to the order in which
    they are stored (or neither can be read). *)
Definition same_draw (gt : game_type) (cols : list string) (r r' : list Z)
  : Prop :=
  let row := {| index := cols; vals := r |} in
  let row' := {| index := cols; vals := r' |} in
  getitem row "Bonus" = getitem row' "Bonus" ∧
  match primary_of row gt, primary_of row' gt with
  | Some p, Some p' => p ≡ₚ p'
  | None, None => True
  | _, _ => False
  end.

(** * Lemmas *)

(** ** Arithmetic on cells *)

Lemma wrap64_id z : int64 z → wrap64 z = z.
Proof. unfold int64, wrap64. intros Hz. rewrite Z.mod_small; lia. Qed.

Lemma wrap64_int64 z : int64 (wrap64 z).
Proof.
  unfold int64, wrap64.
  pose proof (Z.mod_pos_bound (z + 2 ^ 63) (2 ^ 64)). lia.
Qed.

Lemma add64_small a b : small a → small b → add64 a b = (a + b)%Z.
Proof. unfold small, add64. intros Ha Hb. apply wrap64_id. unfold int64. lia. Qed.

Lemma abs64_sub64_small a b :
  small a → small b → abs64 (sub64 a b) = Z.abs (a - b).
Proof.
  unfold small, abs64, sub64. intros Ha Hb.
  rewrite (wrap64_id (a - b)) by (unfold int64; lia).
  apply wrap64_id. unfold int64. lia.
Qed.

Lemma relation_holds_small rel a b t :
  small a → small b → relation_holds rel a b t ↔ relation_exact rel a b t.
Proof.
  intros Ha Hb. destruct rel; simpl.
  - by rewrite abs64_sub64_small.
  - by rewrite add64_small.
Qed.

(** ** Reading rows *)

Lemma get_loc_Some name cols :
  name ∈ cols → ∃ pos, get_loc name cols = Some pos ∧ pos < length cols.
Proof.
  induction cols as [|c cs IH]; intros Hin; [by apply elem_of_nil in Hin|].
  simpl. destruct (decide (c = name)) as [->|Hne].
  - exists 0. split; [done|simpl; lia].
  - apply elem_of_cons in Hin as [->|Hin]; [done|].
    destruct (IH Hin) as (pos & -> & Hlt). exists (S pos). split; [done|simpl; lia].
Qed.

Section Occurrences.
Context {K : Type} `{EqDecision K}.
Implicit Types (k : K) (l : list K).

Lemma occ_cons k x l :
  occ k (x :: l) = (if decide (x = k) then 1 else 0) + occ k l.
Proof. unfold occ. simpl. rewrite filter_cons. by destruct (decide (x = k)). Qed.

Lemma occ_pos k l : 0 < occ k l ↔ k ∈ l.
Proof.
  induction l as [|x l IH]; [by rewrite elem_of_nil; unfold occ; simpl; lia|].
  rewrite occ_cons, elem_of_cons.
  destruct (decide (x = k)) as [->|]; [split; [eauto|lia]|].
  simpl. rewrite IH. naive_solver.
Qed.

End Occurrences.

(** A label that exactly one column carries is read as the cell of that
    column. *)
Lemma getitem_is_Some row name :
  length (vals row) = length (index row) → occ name (index row) = 1 →
  is_Some (getitem row name).
Proof.
  intros Hlen Hocc. unfold getitem.
  destruct (get_loc_Some name (index row)) as (pos & -> & Hlt).
  { apply occ_pos. lia. }
  simpl. rewrite decide_True by done. apply lookup_lt_is_Some. lia.
Qed.


Lemma iloc_Some df i :
  i < len df → ∃ r, values df !! i = Some r ∧
    iloc df i = Some {| index := columns df; vals := r |}.
Proof.
  intros Hi. destruct (lookup_lt_is_Some_2 (values df) i Hi) as [r Hr].
  exists r. split; [done|]. unfold iloc. by rewrite Hr.
Qed.

Lemma iloc_index df i row : iloc df i = Some row → index row = columns df.
Proof.
  unfold iloc. destruct (values df !! i); simpl; [|done]. by intros [= <-].
Qed.

Lemma primary_is_Some df gt r :
  wf_frame df gt → r ∈ values df →
  is_Some (mapM (λ k, getitem {| index := columns df; vals := r |} (N_col k))
             (range 1 (S (arity gt)))).
Proof.
  intros (Hcols & _ & Hrows) Hr. apply mapM_is_Some, Forall_forall.
  intros k Hk. apply getitem_is_Some; simpl.
  - by apply (proj1 (Forall_forall _ _) Hrows).
  - apply (proj1 (Forall_forall _ _) Hcols). unfold N_cols.
    apply list_elem_of_fmap. by exists k.
Qed.

Lemma draw_of_is_Some df gt i :
  wf_frame df gt → i < len df →
  ∃ row d, iloc df i = Some row ∧ draw_of row gt = Some d.
Proof.
  intros Hwf Hi. destruct (iloc_Some df i Hi) as (r & Hr & Hrow).
  assert (r ∈ values df) as Hin by (by eapply list_elem_of_lookup_2).
  destruct (primary_is_Some df gt r Hwf Hin) as [prim Hprim].
  exists {| index := columns df; vals := r |}.
  cut (is_Some (draw_of {| index := columns df; vals := r |} gt)).
  { intros [d Hd]. by exists d. }
  unfold draw_of. rewrite Hprim. cbn [mbind option_bind].
  destruct gt; [|by eexists].
  destruct (decide (_ ∈ _)) as [Hb|Hb]; [|by eexists].
  destruct Hwf as (_ & Hbonus & Hrows).
  destruct (getitem_is_Some {| index := columns df; vals := r |} "Bonus")
    as [b Hbv].
  { simpl. by apply (proj1 (Forall_forall _ _) Hrows). }
  { simpl in *. apply occ_pos in Hb. specialize (Hbonus eq_refl). lia. }
  rewrite Hbv. by eexists.
Qed.

Lemma get_row_numbers_draw row gt d :
  draw_of row gt = Some d → get_row_numbers row gt = Some (DrawSet d).
Proof.
  unfold draw_of, get_row_numbers, DrawSet. destruct gt; unfold arity.
  - destruct (mapM _ (range 1 7)) as [prim|]; [|done]. cbn [mbind option_bind].
    destruct (decide ("Bonus" ∈ index row)).
    + destruct (getitem row "Bonus") as [b|]; simpl; [|done]. by intros [= <-].
    + intros ?; simplify_eq. simpl. by rewrite (right_id_L ∅ (∪)).
  - destruct (mapM _ (range 1 6)) as [prim|]; [|done]. cbn [mbind option_bind].
    intros ?; simplify_eq. simpl. by rewrite (right_id_L ∅ (∪)).
Qed.

Lemma draw_of_bonus row gt d :
  draw_of row gt = Some d →
  (gt = UK49 ∧ "Bonus" ∈ index row ∧ is_Some (bonus d) ∧
     getitem row "Bonus" = bonus d) ∨
  ((gt = SADaily ∨ "Bonus" ∉ index row) ∧ bonus d = None).
Proof.
  unfold draw_of. destruct (mapM _ _) as [prim|]; [|done].
  cbn [mbind option_bind]. destruct gt.
  - destruct (decide ("Bonus" ∈ index row)).
    + destruct (getitem row "Bonus") as [b|]; simpl; [|done].
      intros [= <-]. left. simpl. eauto.
    + intros [= <-]. right. eauto.
  - intros [= <-]. right. eauto.
Qed.

Lemma next_numbers_is_Some df gt i :
  wf_frame df gt → is_Some (get_next_numbers_list df i gt).
Proof.
  intros Hwf. unfold get_next_numbers_list.
  destruct (decide (len df ≤ i + 1)) as [|Hlt]; [eauto|].
  destruct (iloc_Some df (i + 1)) as (r & Hr & ->); [lia|].
  cbn [mbind option_bind].
  assert (r ∈ values df) as Hin by (by eapply list_elem_of_lookup_2).
  destruct (primary_is_Some df gt r Hwf Hin) as [prim Hprim].
  destruct gt; unfold arity in Hprim; rewrite Hprim; simpl; eauto.
Qed.

Lemma next_numbers_length df gt i nxt :
  i + 1 < len df → get_next_numbers_list df i gt = Some nxt →
  length nxt = arity gt.
Proof.
  intros Hi. unfold get_next_numbers_list.
  destruct (decide (len df ≤ i + 1)); [lia|].
  destruct (iloc df (i + 1)) as [row|]; [|done]. cbn [mbind option_bind].
  assert (∀ a prim,
    mapM (λ k, getitem row (N_col k)) (range 1 (S a)) = Some prim →
    length (sorted prim) = a) as Hlen.
  { intros a prim Hm. apply mapM_Some_1, Forall2_length in Hm.
    unfold sorted. rewrite merge_sort_Permutation, <- Hm.
    unfold range. rewrite length_seq. lia. }
  destruct gt.
  - destruct (mapM _ _) as [prim|] eqn:Hm; [|done].
    intros [= <-]. by apply (Hlen 6).
  - destruct (mapM _ _) as [prim|] eqn:Hm; [|done].
    intros [= <-]. by apply (Hlen 5).
Qed.

(** The matching decision of [analyze_splits], in the specification's terms. *)
Lemma is_match_spec df cur gt i row d :
  iloc df i = Some row → draw_of row gt = Some d →
  is_match df cur gt i = Some (bool_decide (matches d cur gt)).
Proof.
  intros Hrow Hd. unfold is_match. rewrite Hrow. simpl.
  rewrite (get_row_numbers_draw _ _ _ Hd). simpl.
  pose proof (iloc_index _ _ _ Hrow) as Hidx.
  assert (match_threshold ≤ size (list_to_set cur ∩ DrawSet d)
          ↔ intersection_rule d cur) as Hint.
  { unfold intersection_rule, match_threshold.
    by rewrite (comm_L (∩) (list_to_set cur) (DrawSet d)). }
  destruct (decide (gt = UK49 ∧ 6 < length cur)) as [[-> Hlen]|Hguard].
  - destruct (draw_of_bonus _ _ _ Hd) as [(_ & Hin & [b Hb] & Hget)|[Hno Hb]].
    + rewrite <- Hidx. rewrite decide_True by done. simpl.
      rewrite Hget, Hb. simpl.
      destruct (last cur) as [x|] eqn:Hlast; simpl.
      * destruct (decide (b = x)) as [->|Hne]; f_equal.
        -- symmetry. apply bool_decide_eq_true. right.
           unfold bonus_rule. rewrite Hb, Hlast. eauto.
        -- apply bool_decide_ext. unfold matches, bonus_rule.
           rewrite Hint, Hb, Hlast. naive_solver.
      * apply last_None in Hlast. subst cur. simpl in Hlen. lia.
    + destruct Hno as [?|Hno]; [done|]. rewrite <- Hidx.
      rewrite decide_False by done. f_equal. apply bool_decide_ext.
      unfold matches, bonus_rule. rewrite Hint, Hb.
      split; [by left|]. intros [?|(_ & _ & [? ?] & _)]; done.
  - f_equal. apply bool_decide_ext. unfold matches, bonus_rule.
    rewrite Hint. naive_solver.
Qed.

(** ** Facts about counters *)

Section CounterFacts.
Context {K : Type} `{EqDecision K}.
Implicit Types (c : Counter K) (k : K) (l : list K).

Lemma counter_get_incr k k' c :
  counter_get (counter_incr k c) k' =
  if decide (k = k') then S (counter_get c k') else counter_get c k'.
Proof.
  induction c as [|[k0 n] c IH]; simpl.
  - by destruct (decide (k = k')).
  - destruct (decide (k0 = k)) as [->|Hne]; simpl.
    + by destruct (decide (k = k')).
    + rewrite IH. destruct (decide (k0 = k')) as [->|]; [|done].
      by rewrite decide_False.
Qed.

Lemma counter_get_update c l k :
  counter_get (update c l) k = counter_get c k + occ k l.
Proof.
  unfold update. revert c. induction l as [|x l IH]; intros c; simpl.
  - unfold occ. simpl. lia.
  - rewrite IH, counter_get_incr, occ_cons.
    destruct (decide (x = k)); lia.
Qed.

Lemma update_app c l1 l2 : update c (l1 ++ l2) = update (update c l1) l2.
Proof. unfold update. by rewrite foldl_app. Qed.

Lemma update_n_concat n c l : update_n n c l = update c (concat (replicate n l)).
Proof.
  assert (∀ m, concat (replicate m l) ++ l = l ++ concat (replicate m l)) as Hc.
  { induction m as [|m IH]; simpl; [by rewrite app_nil_r|].
    by rewrite <- app_assoc, IH. }
  unfold update_n. induction n as [|n IH]; simpl; [done|].
  by rewrite IH, <- update_app, Hc.
Qed.


(** Keys in insertion order. *)
Lemma counter_incr_keys k c :
  (counter_incr k c).*1 = if decide (k ∈ c.*1) then c.*1 else c.*1 ++ [k].
Proof.
  induction c as [|[k0 n] c IH].
  - cbn. destruct (decide (k ∈ [])) as [Hin|]; [|done].
    by apply elem_of_nil in Hin.
  - cbn [counter_incr fmap list_fmap fst].
    destruct (decide (k0 = k)) as [->|Hne]; cbn [fmap list_fmap fst].
    + rewrite decide_True; [done|]. apply elem_of_cons. by left.
    + rewrite IH. destruct (decide (k ∈ c.*1)) as [Hin|Hnin].
      * rewrite decide_True; [done|]. apply elem_of_cons. by right.
      * rewrite decide_False; [done|]. rewrite elem_of_cons. naive_solver.
Qed.

End CounterFacts.

(** ** One step of the frequency scan *)

Lemma bonus_rule_code df cur i row d x :
  iloc df i = Some row → draw_of row UK49 = Some d → 6 < length cur →
  last cur = Some x →
  (if decide ("Bonus" ∈ columns df)
   then Some (bool_decide (getitem row "Bonus" = Some x))
   else Some false) = Some (bool_decide (bonus_rule d cur UK49)).
Proof.
  intros Hrow Hd Hlen Hlast. rewrite <- (iloc_index _ _ _ Hrow). f_equal.
  destruct (draw_of_bonus _ _ _ Hd) as [(_ & Hin & [b Hb] & Hget)|[Hno Hb]].
  - rewrite decide_True by done. f_equal. apply bool_decide_ext.
    unfold bonus_rule. rewrite Hget, Hb, Hlast. naive_solver.
  - destruct Hno as [?|Hno]; [done|]. rewrite decide_False by done.
    f_equal. symmetry. apply bool_decide_eq_false. unfold bonus_rule.
    rewrite Hb. intros (_ & _ & [? ?] & _). done.
Qed.

(** What one step does to the counter: nothing when neither rule fires
    (the successor is then not even read), and otherwise [weight] updates
    with the successor's numbers. *)
Lemma patterns_body_weight df cur gt c i row d :
  iloc df i = Some row → draw_of row gt = Some d →
  patterns_body df cur gt c i =
  if decide (weight d cur gt = 0) then Some c
  else (λ nxt, update_n (weight d cur gt) c nxt) <$>
       get_next_numbers_list df i gt.
Proof.
  intros Hrow Hd. unfold patterns_body. rewrite Hrow. simpl.
  rewrite (get_row_numbers_draw _ _ _ Hd). simpl.
  assert (match_threshold ≤ size (list_to_set cur ∩ DrawSet d)
          ↔ intersection_rule d cur) as Hint.
  { unfold intersection_rule, match_threshold.
    by rewrite (comm_L (∩) (list_to_set cur) (DrawSet d)). }
  unfold weight, update_n.
  destruct (decide (gt = UK49 ∧ 6 < length cur)) as [[-> Hlen]|Hguard].
  - destruct (last cur) as [x|] eqn:Hlast;
      [|apply last_None in Hlast; subst cur; simpl in Hlen; lia].
    pose proof (bonus_rule_code df cur i row d x Hrow Hd Hlen Hlast) as Hb.
    destruct (decide (bonus_rule d cur UK49)) as [Hbr|Hbr].
    + rewrite (bool_decide_eq_true_2 (bonus_rule d cur UK49)) in Hb by done.
      destruct (decide ("Bonus" ∈ columns df)); [|done].
      injection Hb as Hb. apply bool_decide_eq_true in Hb.
      destruct (decide (intersection_rule d cur)) as [Hi|Hi].
      * rewrite decide_True by by apply Hint.
        destruct (get_next_numbers_list df i UK49) as [nxt|]; simpl; [|done].
        rewrite Hb. simpl. by rewrite decide_True.
      * rewrite decide_False by by rewrite Hint. simpl.
        rewrite Hb. simpl. rewrite decide_True by done.
        by destruct (get_next_numbers_list df i UK49) as [nxt|].
    + rewrite (bool_decide_eq_false_2 (bonus_rule d cur UK49)) in Hb by done.
      assert (∀ p : Counter Z,
        (if decide ("Bonus" ∈ columns df)
         then row0 ← Some row; b ← getitem row0 "Bonus";
              if decide (b = x)
              then nxt ← get_next_numbers_list df i UK49;
                   nxt0 ← get_next_numbers_list df i UK49;
                   Some (update (update p nxt) nxt0)
              else Some p
         else Some p) = Some p) as Hskip.
      { intros p. destruct (decide ("Bonus" ∈ columns df)); [|done].
        injection Hb as Hb. apply bool_decide_eq_false in Hb. simpl.
        destruct (getitem row "Bonus") as [b|] eqn:Hg; simpl.
        - rewrite decide_False; [done|]. by intros ->.
        - exfalso. destruct (draw_of_bonus _ _ _ Hd)
            as [(_ & _ & [b Hbd] & Hget)|[[?|Hno] _]]; [congruence|done|].
          apply Hno. by rewrite (iloc_index _ _ _ Hrow). }
      destruct (decide (intersection_rule d cur)) as [Hi|Hi].
      * rewrite decide_True by by apply Hint.
        destruct (get_next_numbers_list df i UK49) as [nxt|]; simpl; [|done].
        apply Hskip.
      * rewrite decide_False by by rewrite Hint. simpl. apply Hskip.
  - rewrite (decide_False (P := bonus_rule d cur gt))
      by (unfold bonus_rule; naive_solver).
    destruct (decide (intersection_rule d cur)) as [Hi|Hi].
    + rewrite decide_True by by apply Hint.
      by destruct (get_next_numbers_list df i gt) as [nxt|].
    + by rewrite decide_False by by rewrite Hint.
Qed.

Lemma patterns_body_spec df cur gt c i row d nxt :
  iloc df i = Some row → draw_of row gt = Some d →
  get_next_numbers_list df i gt = Some nxt →
  patterns_body df cur gt c i = Some (update_n (weight d cur gt) c nxt).
Proof.
  intros Hrow Hd Hnxt. rewrite (patterns_body_weight _ _ _ _ _ _ _ Hrow Hd), Hnxt.
  destruct (decide (weight d cur gt = 0)) as [->|]; done.
Qed.

(** ** Loops *)

(** A loop whose every step succeeds and keeps an invariant succeeds and
    keeps it. *)
Lemma for_each_invariant {S A} (f : S → A → option S) (I : S → Prop) l s :
  I s →
  (∀ s x, x ∈ l → I s → ∃ s', f s x = Some s' ∧ I s') →
  ∃ s', for_each f s l = Some s' ∧ I s'.
Proof.
  revert s. induction l as [|x l IH]; intros s Hs Hstep; simpl; [eauto|].
  destruct (Hstep s x) as (s1 & -> & Hs1); [by left|done|]. simpl.
  apply IH; [done|]. intros s2 y Hy. apply Hstep. by right.
Qed.

(** A loop that returns has run every step; a relation that each step
    extends by its own events relates the ends by all events in order. *)
Lemma for_each_trace {S A E} (f : S → A → option S) (ev : A → list E)
    (R : S → list E → S → Prop) l s s' :
  (∀ s, R s [] s) →
  (∀ s1 s2 s3 e1 e2, R s1 e1 s2 → R s2 e2 s3 → R s1 (e1 ++ e2) s3) →
  (∀ s x s', x ∈ l → f s x = Some s' → R s (ev x) s') →
  for_each f s l = Some s' → R s (concat (ev <$> l)) s'.
Proof.
  intros Hrefl Htrans. revert s.
  induction l as [|x l IH]; intros s Hstep; simpl.
  - intros [= <-]. apply Hrefl.
  - destruct (f s x) as [s1|] eqn:Hf; simpl; [|done]. intros Hrest.
    eapply Htrans.
    + apply Hstep; [by left|done].
    + apply IH; [|done]. intros s2 y s3 Hy. apply Hstep. by right.
Qed.

Lemma range_0 n : range 0 n = seq 0 n.
Proof. unfold range. by rewrite Nat.sub_0_r. Qed.

Lemma elem_of_scan_range df i : i ∈ range 0 (len df - 1) ↔ i + 1 < len df.
Proof. rewrite range_0, elem_of_seq. lia. Qed.

(** ** The split scan applies its events *)

Lemma keys_for_app t es1 es2 :
  keys_for t (es1 ++ es2) = keys_for t es1 ++ keys_for t es2.
Proof. unfold keys_for. by rewrite filter_app, fmap_app. Qed.

Lemma applies_nil m : applies m [] m.
Proof. intros t. unfold keys_for. simpl. by destruct (m !! t). Qed.

Lemma applies_app m1 m2 m3 es1 es2 :
  applies m1 es1 m2 → applies m2 es2 m3 → applies m1 (es1 ++ es2) m3.
Proof.
  intros H1 H2 t. rewrite H2, H1, keys_for_app.
  destruct (m1 !! t) as [c|]; simpl; [|done]. by rewrite update_app.
Qed.

Lemma bump_applies t key m m' :
  bump t key m = Some m' → applies m [(t, key)] m'.
Proof.
  unfold bump. destruct (m !! t) as [c|] eqn:Hc; simpl; [|done].
  intros [= <-] t0. unfold keys_for. rewrite filter_cons. simpl.
  destruct (decide (t = t0)) as [->|Hne].
  - by rewrite lookup_insert_eq, Hc.
  - rewrite lookup_insert_ne by done. by destruct (m !! t0).
Qed.

Lemma check_pair_applies t m p m' :
  check_pair t m p = Some m' → applies m (pair_events t p) m'.
Proof.
  destruct p as [a b]. unfold check_pair, pair_events.
  cbn [fst snd]. intros Hrun. apply bind_Some in Hrun as (m1 & H1 & H2).
  apply (applies_app m m1 m').
  - destruct (decide (abs64 (sub64 a b) = t)).
    + by apply bump_applies.
    + injection H1 as <-. apply applies_nil.
  - destruct (decide (add64 a b = t)).
    + by apply bump_applies.
    + injection H2 as <-. apply applies_nil.
Qed.

Lemma scan_pairs_applies top_targets next_pairs m m' :
  scan_pairs top_targets next_pairs m = Some m' →
  applies m (scan_events top_targets next_pairs) m'.
Proof.
  unfold scan_pairs, scan_events.
  apply (for_each_trace _ (λ t, concat (pair_events t <$> next_pairs)) applies);
    [apply applies_nil|apply applies_app|].
  intros m1 t m2 _.
  apply (for_each_trace _ (pair_events t) applies);
    [apply applies_nil|apply applies_app|].
  intros m3 p m4 _. apply check_pair_applies.
Qed.

Lemma splits_body_applies df cur top_targets gt m i m' :
  splits_body df cur top_targets gt m i = Some m' →
  applies m (row_events df cur top_targets gt i) m'.
Proof.
  unfold splits_body, row_events.
  destruct (is_match df cur gt i) as [[|]|]; simpl; [| |done].
  - destruct (get_next_numbers_list df i gt) as [nxt|]; simpl; [|done].
    apply scan_pairs_applies.
  - intros [= <-]. apply applies_nil.
Qed.

Lemma init_stats_lookup top_targets t :
  init_stats top_targets !! t = if decide (t ∈ top_targets) then Some [] else None.
Proof.
  unfold init_stats.
  assert (∀ (m0 : gmap Z (Counter split_key)),
    foldl (λ m t, <[t := []]> m) m0 top_targets !! t =
    if decide (t ∈ top_targets) then Some [] else m0 !! t) as Hgen.
  { induction top_targets as [|t0 l IH]; intros m0; cbn [foldl].
    - destruct (decide (t ∈ [])) as [Hin|]; [|done].
      by apply elem_of_nil in Hin.
    - rewrite IH. destruct (decide (t ∈ l)) as [Hin|Hnin].
      + rewrite decide_True; [done|]. by right.
      + destruct (decide (t0 = t)) as [->|Hne].
        * rewrite decide_True by by left. by rewrite lookup_insert_eq.
        * rewrite lookup_insert_ne by done. rewrite decide_False; [done|].
          rewrite elem_of_cons. naive_solver. }
  rewrite Hgen. by destruct (decide (t ∈ top_targets)).
Qed.

(** What [analyze_splits] returns, when it returns. *)
Lemma analyze_splits_trace df cur top_targets gt m :
  analyze_splits df cur top_targets gt = Some m →
  ∀ t, m !! t =
       if decide (t ∈ top_targets)
       then Some (update [] (keys_for t (split_events df cur top_targets gt)))
       else None.
Proof.
  intros Hrun t.
  assert (applies (init_stats top_targets)
            (split_events df cur top_targets gt) m) as Happ.
  { revert Hrun. unfold analyze_splits, split_events.
    apply (for_each_trace _ (row_events df cur top_targets gt) applies);
      [apply applies_nil|apply applies_app|].
    intros m1 i m2 _. apply splits_body_applies. }
  rewrite Happ, init_stats_lookup. by destruct (decide (t ∈ top_targets)).
Qed.

(** ** The frequency scan feeds in its followers *)

Lemma get_row_numbers_draw_is_Some row gt :
  is_Some (get_row_numbers row gt) → is_Some (draw_of row gt).
Proof.
  unfold get_row_numbers, draw_of. destruct gt; unfold arity.
  - destruct (mapM _ (range 1 7)) as [prim|]; cbn [mbind option_bind];
      [|by intros [? ?]].
    destruct (decide ("Bonus" ∈ index row)); [|by eexists].
    destruct (getitem row "Bonus"); simpl; [by eexists|by intros [? ?]].
  - destruct (mapM _ (range 1 6)) as [prim|]; cbn [mbind option_bind];
      [by eexists|by intros [? ?]].
Qed.

Lemma patterns_body_trace df cur gt c i c' :
  patterns_body df cur gt c i = Some c' →
  c' = update c (followers_of df cur gt i).
Proof.
  intros Hrun. assert (∃ row d, iloc df i = Some row ∧ draw_of row gt = Some d)
    as (row & d & Hrow & Hd).
  { unfold patterns_body in Hrun.
    apply bind_Some in Hrun as (row & Hrow & Hrun).
    apply bind_Some in Hrun as (rs & Hrs & _).
    destruct (get_row_numbers_draw_is_Some row gt) as [d Hd]; eauto. }
  rewrite (patterns_body_weight _ _ _ _ _ _ _ Hrow Hd) in Hrun.
  unfold followers_of. rewrite Hrow. cbn [mbind option_bind]. rewrite Hd.
  destruct (decide (weight d cur gt = 0)) as [Hw|Hw].
  - injection Hrun as <-. rewrite Hw.
    by destruct (get_next_numbers_list df i gt).
  - destruct (get_next_numbers_list df i gt) as [nxt|]; [|done].
    injection Hrun as <-. apply update_n_concat.
Qed.

(** What [analyze_patterns] returns, when it returns. *)
Lemma analyze_patterns_trace df cur gt raw :
  analyze_patterns df cur gt = Some raw →
  raw = update [] (followers df cur gt).
Proof.
  unfold analyze_patterns, followers.
  apply (for_each_trace _ (followers_of df cur gt)
           (λ c es c', c' = update c es)).
  - done.
  - intros c1 c2 c3 e1 e2 -> ->. by rewrite update_app.
  - intros c i c' _. apply patterns_body_trace.
Qed.

(** ** Both scans return on readable frames *)

Lemma analyze_patterns_total df cur gt :
  wf_frame df gt → is_Some (analyze_patterns df cur gt).
Proof.
  intros Hwf. unfold analyze_patterns.
  destruct (for_each_invariant (patterns_body df cur gt) (λ _, True)
              (range 0 (len df - 1)) []) as (raw & Hraw & _); [done| |by eexists].
  intros c i Hi _. apply elem_of_scan_range in Hi.
  destruct (draw_of_is_Some df gt i Hwf) as (row & d & Hrow & Hd); [lia|].
  destruct (next_numbers_is_Some df gt i Hwf) as [nxt Hnxt].
  rewrite (patterns_body_spec _ _ _ _ _ _ _ _ Hrow Hd Hnxt). eauto.
Qed.

Lemma is_match_total df cur gt i :
  wf_frame df gt → i < len df → is_Some (is_match df cur gt i).
Proof.
  intros Hwf Hi.
  destruct (draw_of_is_Some df gt i Hwf Hi) as (row & d & Hrow & Hd).
  rewrite (is_match_spec _ _ _ _ _ _ Hrow Hd). by eexists.
Qed.

Lemma bump_total top_targets t key m :
  covers top_targets m → t ∈ top_targets →
  ∃ m', bump t key m = Some m' ∧ covers top_targets m'.
Proof.
  intros Hcov Ht. unfold bump. destruct (Hcov t Ht) as [c Hc].
  rewrite Hc. simpl. eexists. split; [done|]. intros t0 Ht0.
  destruct (decide (t = t0)) as [->|Hne].
  - rewrite lookup_insert_eq. by eexists.
  - rewrite lookup_insert_ne by done. by apply Hcov.
Qed.

Lemma scan_pairs_total top_targets next_pairs m :
  covers top_targets m →
  ∃ m', scan_pairs top_targets next_pairs m = Some m' ∧ covers top_targets m'.
Proof.
  intros Hcov. unfold scan_pairs. apply for_each_invariant; [done|].
  intros m1 t Ht Hm1. apply for_each_invariant; [done|].
  intros m2 [a b] _ Hm2. unfold check_pair.
  destruct (decide (abs64 (sub64 a b) = t)).
  - destruct (bump_total top_targets t (a, b, Diff) m2 Hm2 Ht) as (m3 & -> & Hm3).
    simpl. destruct (decide (add64 a b = t)); [|eauto].
    by apply bump_total.
  - simpl. destruct (decide (add64 a b = t)); [|eauto].
    by apply bump_total.
Qed.

Lemma analyze_splits_total df cur top_targets gt :
  wf_frame df gt → is_Some (analyze_splits df cur top_targets gt).
Proof.
  intros Hwf. unfold analyze_splits.
  destruct (for_each_invariant (splits_body df cur top_targets gt)
              (covers top_targets) (range 0 (len df - 1))
              (init_stats top_targets)) as (m & Hm & _); [| |by eexists].
  - intros t Ht. rewrite init_stats_lookup, decide_True by done. by eexists.
  - intros m i Hi Hcov. apply elem_of_scan_range in Hi. unfold splits_body.
    destruct (is_match_total df cur gt i Hwf) as [b ->]; [lia|].
    destruct (next_numbers_is_Some df gt i Hwf) as [nxt ->]. simpl.
    destruct b; [|eauto]. by apply scan_pairs_total.
Qed.

(** ** Facts about ranking *)

Section Ranking.
Context {K : Type} `{EqDecision K}.
Implicit Types (c : Counter K) (e : K * nat) (l : list K).

Lemma update_keys c l :
  (update c l).*1 =
  foldl (λ acc x, if decide (x ∈ acc) then acc else acc ++ [x]) c.*1 l.
Proof.
  unfold update. revert c. induction l as [|x l IH]; intros c; simpl; [done|].
  by rewrite IH, counter_incr_keys.
Qed.

Lemma update_keys_first_seen l : (update ([] : Counter K) l).*1 = first_seen l.
Proof. apply update_keys. Qed.

Lemma elem_of_update_keys c l k : k ∈ (update c l).*1 ↔ k ∈ c.*1 ∨ k ∈ l.
Proof.
  rewrite update_keys. generalize (c.*1). clear c.
  induction l as [|x l IH]; intros acc; simpl.
  - rewrite elem_of_nil. naive_solver.
  - rewrite IH, elem_of_cons. destruct (decide (x ∈ acc)) as [Hin|Hnin].
    + naive_solver.
    + rewrite elem_of_app, list_elem_of_singleton. naive_solver.
Qed.

Lemma update_keys_NoDup c l : NoDup c.*1 → NoDup (update c l).*1.
Proof.
  rewrite update_keys. generalize (c.*1). clear c.
  induction l as [|x l IH]; intros acc Hnd; simpl; [done|].
  apply IH. destruct (decide (x ∈ acc)) as [Hin|Hnin]; [done|].
  apply NoDup_app. split_and!; [done| |apply NoDup_singleton].
  intros y Hy ->%list_elem_of_singleton. done.
Qed.

Lemma insert_desc_perm e c : insert_desc e c ≡ₚ e :: c.
Proof.
  induction c as [|e' c IH]; simpl; [done|].
  destruct (decide (e.2 < e'.2)); [|done].
  rewrite IH. apply Permutation_swap.
Qed.

Lemma insert_desc_HdRel a e c :
  HdRel by_count_desc a c → by_count_desc a e →
  HdRel by_count_desc a (insert_desc e c).
Proof.
  intros Hc He. destruct c as [|e' c]; simpl; [by constructor|].
  destruct (decide (e.2 < e'.2)); constructor; [|done].
  by inversion Hc.
Qed.

Lemma insert_desc_Sorted e c :
  Sorted by_count_desc c → Sorted by_count_desc (insert_desc e c).
Proof.
  induction 1 as [|e' c Hs IH Hhd]; simpl; [by repeat constructor|].
  destruct (decide (e.2 < e'.2)) as [Hlt|Hge].
  - constructor; [done|]. apply insert_desc_HdRel; [done|].
    unfold by_count_desc. lia.
  - constructor; [by constructor|]. constructor. unfold by_count_desc. lia.
Qed.

Lemma insert_desc_stable (n : nat) e c :
  filter (λ x, x.2 = n) (insert_desc e c) = filter (λ x, x.2 = n) (e :: c).
Proof.
  induction c as [|e' c IH]; simpl; [done|].
  destruct (decide (e.2 < e'.2)) as [Hlt|Hge]; [|done].
  rewrite (filter_cons _ e'), IH, !filter_cons.
  destruct (decide (e'.2 = n)), (decide (e.2 = n)); try done. lia.
Qed.

(** [sorted_desc] ranks the counter. *)
Lemma sorted_desc_ranks c : ranks c (sorted_desc c).
Proof.
  unfold ranks, sorted_desc. induction c as [|e c (Hp & Hs & Hst)]; simpl.
  - split_and!; [done|constructor|done].
  - split_and!.
    + by rewrite insert_desc_perm, Hp.
    + by apply insert_desc_Sorted.
    + intros n. by rewrite insert_desc_stable, !filter_cons, Hst.
Qed.

Lemma most_common_length n c : length (most_common n c) = n `min` length c.
Proof.
  unfold most_common. rewrite length_take.
  destruct (sorted_desc_ranks c) as (Hp & _). by rewrite Hp.
Qed.
End Ranking.

(** ** Successor numbers are ascending *)

Lemma sorted_ascending l : StronglySorted Z.le (sorted l).
Proof. unfold sorted. apply StronglySorted_merge_sort; apply _. Qed.

Lemma next_numbers_ascending df i gt nxt :
  get_next_numbers_list df i gt = Some nxt → StronglySorted Z.le nxt.
Proof.
  unfold get_next_numbers_list. destruct (decide (len df ≤ i + 1)).
  - intros [= <-]. constructor.
  - destruct (iloc df (i + 1)) as [row|]; [|done]. cbn [mbind option_bind].
    destruct gt; destruct (mapM _ _) as [prim|]; try done;
      intros [= <-]; apply sorted_ascending.
Qed.

Lemma combinations2_ascending l a b :
  StronglySorted Z.le l → (a, b) ∈ combinations2 l → (a ≤ b)%Z.
Proof.
  induction 1 as [|x l Hs IH Hall]; simpl; [by intros ?%elem_of_nil|].
  rewrite elem_of_app. intros [Hin|Hin]; [|by apply IH].
  apply list_elem_of_fmap in Hin as (y & [= -> ->] & Hy).
  by apply (proj1 (Forall_forall _ _) Hall).
Qed.

(** ** Membership in the event streams *)

Lemma elem_of_concat {A} (x : A) (ls : list (list A)) :
  x ∈ concat ls ↔ ∃ l, l ∈ ls ∧ x ∈ l.
Proof.
  induction ls as [|l0 ls IH]; simpl.
  - rewrite elem_of_nil. split; [done|]. intros (l & Hl & _).
    by apply elem_of_nil in Hl.
  - rewrite elem_of_app, IH. split.
    + intros [Hx|(l & Hl & Hx)]; [exists l0|exists l]; split; try done;
        [by left|by right].
    + intros (l & Hl & Hx). apply elem_of_cons in Hl as [->|Hl]; eauto.
Qed.

Lemma elem_of_keys_for t key es : key ∈ keys_for t es ↔ (t, key) ∈ es.
Proof.
  unfold keys_for. rewrite list_elem_of_fmap. split.
  - intros ([t0 k0] & -> & Hin). apply list_elem_of_filter in Hin as [Ht Hin].
    simpl in Ht. by subst t0.
  - intros Hin. exists (t, key). split; [done|].
    apply list_elem_of_filter. by split.
Qed.

Lemma elem_of_pair_events t0 key t a b :
  (t0, key) ∈ pair_events t (a, b) ↔
  t0 = t ∧ ((key = (a, b, Diff) ∧ abs64 (sub64 a b) = t) ∨
            (key = (a, b, Sum) ∧ add64 a b = t)).
Proof.
  unfold pair_events. cbn [fst snd]. rewrite elem_of_app.
  destruct (decide (abs64 (sub64 a b) = t)), (decide (add64 a b = t));
    rewrite ?list_elem_of_singleton, ?elem_of_nil; naive_solver.
Qed.

Lemma elem_of_scan_events t key top_targets next_pairs :
  (t, key) ∈ scan_events top_targets next_pairs ↔
  t ∈ top_targets ∧ ∃ a b, (a, b) ∈ next_pairs ∧
    ((key = (a, b, Diff) ∧ abs64 (sub64 a b) = t) ∨
     (key = (a, b, Sum) ∧ add64 a b = t)).
Proof.
  unfold scan_events. rewrite elem_of_concat. split.
  - intros (l & Hl & Hin). apply list_elem_of_fmap in Hl as (t' & -> & Ht').
    apply elem_of_concat in Hin as (l & Hl & Hin).
    apply list_elem_of_fmap in Hl as ([a b] & -> & Hp).
    apply elem_of_pair_events in Hin as [-> Hkey]. eauto.
  - intros (Ht & a & b & Hp & Hkey). eexists. split.
    + apply list_elem_of_fmap. by exists t.
    + apply elem_of_concat. exists (pair_events t (a, b)). split.
      * apply list_elem_of_fmap. by exists (a, b).
      * by apply elem_of_pair_events.
Qed.

Lemma elem_of_split_events t key df cur top_targets gt :
  (t, key) ∈ split_events df cur top_targets gt ↔
  ∃ i nxt, i + 1 < len df ∧ is_match df cur gt i = Some true ∧
    get_next_numbers_list df i gt = Some nxt ∧
    (t, key) ∈ scan_events top_targets (combinations2 nxt).
Proof.
  unfold split_events. rewrite elem_of_concat. split.
  - intros (l & Hl & Hin). apply list_elem_of_fmap in Hl as (i & -> & Hi).
    apply elem_of_scan_range in Hi. unfold row_events in Hin.
    destruct (is_match df cur gt i) as [[|]|] eqn:Hm;
      try by apply elem_of_nil in Hin.
    destruct (get_next_numbers_list df i gt) as [nxt|] eqn:Hn;
      try by apply elem_of_nil in Hin.
    by exists i, nxt.
  - intros (i & nxt & Hi & Hm & Hn & Hin).
    exists (row_events df cur top_targets gt i). split.
    + apply list_elem_of_fmap. exists i. split; [done|].
      by apply elem_of_scan_range.
    + unfold row_events. by rewrite Hm, Hn.
Qed.

(** ** Counting in streams *)

Lemma occ_nil {K} `{EqDecision K} (k : K) : occ k [] = 0.
Proof. done. Qed.

Lemma occ_app {K} `{EqDecision K} (k : K) l1 l2 :
  occ k (l1 ++ l2) = occ k l1 + occ k l2.
Proof. unfold occ. by rewrite filter_app, length_app. Qed.

Lemma occ_concat {K} `{EqDecision K} (k : K) (ls : list (list K)) :
  occ k (concat ls) = sum_list (occ k <$> ls).
Proof.
  induction ls as [|l ls IH]; simpl; [done|]. by rewrite occ_app, IH.
Qed.

Lemma occ_replicate {K} `{EqDecision K} (k : K) n l :
  occ k (concat (replicate n l)) = n * occ k l.
Proof.
  induction n as [|n IH]; simpl; [done|]. rewrite occ_app, IH. lia.
Qed.

Lemma occ_zero {K} `{EqDecision K} (k : K) l : occ k l = 0 ↔ k ∉ l.
Proof. rewrite <- occ_pos. lia. Qed.

Lemma counter_get_stream {K} `{EqDecision K} (l : list K) k :
  counter_get (update [] l) k = occ k l.
Proof. by rewrite counter_get_update. Qed.

Lemma for_each_app {S A} (f : S → A → option S) s l1 l2 :
  for_each f s (l1 ++ l2) = s' ← for_each f s l1; for_each f s' l2.
Proof.
  revert s. induction l1 as [|x l1 IH]; intros s; simpl; [done|].
  destruct (f s x) as [s'|]; simpl; [apply IH|done].
Qed.

Lemma for_each_ext {S A} (f g : S → A → option S) s l :
  (∀ s x, x ∈ l → f s x = g s x) → for_each f s l = for_each g s l.
Proof.
  revert s. induction l as [|x l IH]; intros s Hfg; simpl; [done|].
  rewrite Hfg by by left. destruct (g s x) as [s'|]; simpl; [|done].
  apply IH. intros s2 y Hy. apply Hfg. by right.
Qed.

(** ** Counting split events *)

Lemma occ_single {K} `{EqDecision K} (k x : K) :
  occ k [x] = if decide (x = k) then 1 else 0.
Proof. rewrite occ_cons, occ_nil. destruct (decide (x = k)); lia. Qed.

Lemma occ_keys_for t key es : occ key (keys_for t es) = occ (t, key) es.
Proof.
  unfold keys_for. induction es as [|[t0 k0] es IH]; [done|].
  rewrite (occ_cons (t, key)).
  destruct (decide (t0 = t)) as [->|Hne].
  - rewrite filter_cons_True by done. rewrite fmap_cons, occ_cons. simpl.
    destruct (decide (k0 = key)) as [->|Hk].
    + rewrite decide_True by done. f_equal. exact IH.
    + rewrite decide_False by congruence. f_equal. exact IH.
  - rewrite filter_cons_False by done.
    rewrite decide_False by congruence. exact IH.
Qed.

Lemma occ_pair_events t a b rel t' a' b' :
  occ (t, (a, b, rel)) (pair_events t' (a', b'))
  = if decide (t' = t ∧ (a', b') = (a, b) ∧ relation_holds rel a b t)
    then 1 else 0.
Proof.
  unfold pair_events. cbn [fst snd]. rewrite occ_app.
  destruct (decide (abs64 (sub64 a' b') = t')) as [Hd|Hd],
    (decide (add64 a' b' = t')) as [Hs|Hs];
    rewrite ?occ_single, ?occ_nil;
    repeat case_decide; destruct rel; simpl in *; naive_solver lia.
Qed.

Lemma occ_pairs_events t a b rel t' pairs :
  occ (t, (a, b, rel)) (concat (pair_events t' <$> pairs))
  = if decide (t' = t ∧ relation_holds rel a b t) then occ (a, b) pairs else 0.
Proof.
  induction pairs as [|[a' b'] pairs IH].
  - cbn [fmap list_fmap concat]. rewrite !occ_nil. by case_decide.
  - rewrite fmap_cons. cbn [concat].
    rewrite occ_app, occ_pair_events, (occ_cons (a, b)).
    etrans; [apply (f_equal (Nat.add _) IH)|].
    repeat case_decide; naive_solver lia.
Qed.

Lemma occ_scan_events t a b rel top_targets pairs :
  occ (t, (a, b, rel)) (scan_events top_targets pairs)
  = occ t top_targets * occ (a, b) pairs
    * (if decide (relation_holds rel a b t) then 1 else 0).
Proof.
  unfold scan_events. induction top_targets as [|t' T IH].
  - cbn [fmap list_fmap concat]. by rewrite !occ_nil.
  - rewrite fmap_cons. cbn [concat].
    rewrite occ_app, occ_pairs_events, (occ_cons t).
    etrans; [apply (f_equal (Nat.add _) IH)|].
    repeat case_decide; naive_solver lia.
Qed.

Lemma occ_split_events t a b rel df cur top_targets gt :
  occ (t, (a, b, rel)) (split_events df cur top_targets gt)
  = occ t top_targets * pair_hits df cur gt a b
    * (if decide (relation_holds rel a b t) then 1 else 0).
Proof.
  unfold split_events, pair_hits. rewrite occ_concat, <- list_fmap_compose.
  induction (range 0 (len df - 1)) as [|i l IH].
  - cbn [fmap list_fmap sum_list sum_list_with]. lia.
  - rewrite !fmap_cons. cbn [sum_list sum_list_with].
    etrans; [apply (f_equal (Nat.add _) IH)|]. simpl.
    unfold row_events, NextNumbers.
    destruct (is_match df cur gt i) as [[|]|]; simpl; try lia.
    destruct (get_next_numbers_list df i gt) as [nxt|]; simpl.
    + rewrite occ_scan_events. lia.
    + lia.
Qed.

(** ** Where reported pairs come from *)

Lemma elem_of_combinations2 l a b :
  (a, b) ∈ combinations2 l ↔
  ∃ i j, i < j ∧ l !! i = Some a ∧ l !! j = Some b.
Proof.
  induction l as [|x l IH]; simpl.
  - rewrite elem_of_nil. split; [done|]. by intros (i & j & _ & ? & _).
  - rewrite elem_of_app, IH, list_elem_of_fmap. split.
    + intros [(y & [= -> ->] & Hy)|(i & j & Hij & Hi & Hj)].
      * apply list_elem_of_lookup in Hy as [j Hj]. exists 0, (S j).
        split_and!; [lia|done|done].
      * exists (S i), (S j). split_and!; [lia|done|done].
    + intros (i & j & Hij & Hi & Hj). destruct j as [|j]; [lia|].
      destruct i as [|i]; simpl in *.
      * left. exists b. split; [congruence|]. by eapply list_elem_of_lookup_2.
      * right. exists i, j. split_and!; [lia|done|done].
Qed.

Lemma getitem_elem row name y : getitem row name = Some y → y ∈ vals row.
Proof.
  unfold getitem. destruct (get_loc name (index row)) as [pos|]; [|done].
  simpl. destruct (decide (_ = 1)); [|done]. apply list_elem_of_lookup_2.
Qed.

Lemma iloc_vals df i row : iloc df i = Some row → vals row ∈ values df.
Proof.
  unfold iloc. destruct (values df !! i) as [r|] eqn:Hr; simpl; [|done].
  intros [= <-]. simpl. by eapply list_elem_of_lookup_2.
Qed.

Lemma next_numbers_values df i gt nxt x :
  get_next_numbers_list df i gt = Some nxt → x ∈ nxt →
  ∃ r, r ∈ values df ∧ x ∈ r.
Proof.
  unfold get_next_numbers_list. destruct (decide (len df ≤ i + 1)).
  { intros [= <-] Hx. by apply elem_of_nil in Hx. }
  destruct (iloc df (i + 1)) as [row|] eqn:Hrow; [|done].
  cbn [mbind option_bind]. intros Hnxt Hx. exists (vals row).
  split; [by eapply iloc_vals|].
  assert (∀ ks prim, mapM (λ k, getitem row (N_col k)) ks = Some prim →
                     x ∈ sorted prim → x ∈ vals row) as Hread.
  { intros ks prim Hm Hin. unfold sorted in Hin.
    rewrite merge_sort_Permutation in Hin.
    apply mapM_Some_1 in Hm. apply list_elem_of_lookup in Hin as [p Hp].
    destruct (Forall2_lookup_r _ _ _ _ _ Hm Hp) as (k & _ & Hk).
    by eapply getitem_elem. }
  destruct gt; destruct (mapM _ _) as [prim|] eqn:Hm; try done;
    injection Hnxt as <-; by eapply Hread.
Qed.

Lemma combinations2_elems l a b : (a, b) ∈ combinations2 l → a ∈ l ∧ b ∈ l.
Proof.
  intros (i & j & _ & Hi & Hj)%elem_of_combinations2.
  split; by eapply list_elem_of_lookup_2.
Qed.

Lemma reported_pair df cur top_targets gt m t a b rel :
  analyze_splits df cur top_targets gt = Some m →
  reported m t (a, b, rel) →
  pair_of_matching_row df cur top_targets gt t a b ∧ relation_holds rel a b t.
Proof.
  intros Hm (c & Hc & Hkey).
  rewrite (analyze_splits_trace _ _ _ _ _ Hm t) in Hc.
  destruct (decide (t ∈ top_targets)) as [Ht|]; [|done]. injection Hc as <-.
  apply elem_of_update_keys in Hkey as [Hkey|Hkey];
    [by apply elem_of_nil in Hkey|].
  apply elem_of_keys_for, elem_of_split_events in Hkey
    as (i & nxt & Hi & Hmt & Hn & Hev).
  apply elem_of_scan_events in Hev as (_ & a' & b' & Hp & Hrel).
  unfold pair_of_matching_row.
  destruct Hrel as [[[= -> -> ->] Heq]|[[= -> -> ->] Heq]];
    (split; [split; [done|]; by exists i, nxt|done]).
Qed.

(** ** Small numbers *)

Lemma next_numbers_small df i gt nxt x :
  small_cells df → get_next_numbers_list df i gt = Some nxt → x ∈ nxt →
  small x.
Proof.
  intros Hsmall Hn Hx.
  destruct (next_numbers_values _ _ _ _ _ Hn Hx) as (r & Hr & Hin).
  pose proof (proj1 (Forall_forall _ _) Hsmall r Hr) as Hrow.
  by apply (proj1 (Forall_forall _ _) Hrow).
Qed.

Lemma pair_small df cur top_targets gt t a b :
  small_cells df → pair_of_matching_row df cur top_targets gt t a b →
  small a ∧ small b.
Proof.
  intros Hsmall (_ & i & nxt & _ & _ & Hn & Hp).
  destruct (combinations2_elems _ _ _ Hp) as [Ha Hb].
  split; by eapply next_numbers_small.
Qed.

Lemma sum_list_pos (l : list nat) : 0 < sum_list l → ∃ x, x ∈ l ∧ 0 < x.
Proof.
  induction l as [|x l IH]; simpl; [lia|]. intros Hpos.
  destruct (decide (0 < x)) as [Hx|Hx].
  - exists x. split; [by left|done].
  - destruct IH as (y & Hy & Hy0); [lia|]. exists y. split; [by right|done].
Qed.

Lemma pair_hits_small df cur gt a b :
  small_cells df → 0 < pair_hits df cur gt a b → small a ∧ small b.
Proof.
  intros Hsmall Hpos. unfold pair_hits in Hpos.
  apply sum_list_pos in Hpos as (n & Hn & Hn0).
  apply list_elem_of_fmap in Hn as (i & -> & _).
  destruct (is_match df cur gt i) as [[|]|]; try lia.
  unfold NextNumbers in Hn0.
  destruct (get_next_numbers_list df i gt) as [nxt|] eqn:Hnxt;
    [|simpl in Hn0; rewrite occ_nil in Hn0; lia].
  simpl in Hn0. apply occ_pos, combinations2_elems in Hn0 as [Ha Hb].
  split; by eapply next_numbers_small.
Qed.

(** * The claims *)

(** C1. For a historical row that can be read, the matching decision
    [is_match] is taken, and it is true if and only if (a) the draw's full
    number set (its primary numbers, and in variant B also its bonus number)
    and the set of numbers of the current draw have at least 3 numbers in
    common, or (b) the variant is B, the current draw has more than 6
    elements and the draw's bonus number equals the last element of the
    current draw. The full number set is the very set [get_row_numbers]
    computes, and a draw of variant A has no bonus number. *)
Theorem matching_decision df cur gt i row d :
  iloc df i = Some row → draw_of row gt = Some d →
  get_row_numbers row gt = Some (DrawSet d) ∧
  (∀ x, x ∈ DrawSet d ↔ x ∈ primary d ∨ bonus d = Some x) ∧
  (gt = SADaily → bonus d = None) ∧
  ∃ m, is_match df cur gt i = Some m ∧
    (m = true ↔
       3 ≤ size (DrawSet d ∩ list_to_set cur) ∨
       (gt = UK49 ∧ 6 < length cur ∧
        is_Some (bonus d) ∧ bonus d = last cur)).
Proof.
  intros Hrow Hd. split_and!.
  - by apply get_row_numbers_draw.
  - intros x. unfold DrawSet. rewrite elem_of_union, elem_of_list_to_set.
    destruct (bonus d) as [b|]; [rewrite elem_of_singleton|rewrite elem_of_empty];
      naive_solver.
  - intros ->. by destruct (draw_of_bonus _ _ _ Hd) as [(? & _)|[_ ?]].
  - exists (bool_decide (matches d cur gt)).
    split; [by apply (is_match_spec _ _ _ _ row)|]. apply bool_decide_eq_true.
Qed.

Lemma matching_decision_witness :
  iloc history7 0 = Some row7_0 ∧ draw_of row7_0 UK49 = Some draw7_0 ∧
  ∃ m, is_match history7 current7 UK49 0 = Some m ∧
    (m = true ↔
       3 ≤ size (DrawSet draw7_0 ∩ list_to_set current7) ∨
       (UK49 = UK49 ∧ 6 < length current7 ∧
        is_Some (bonus draw7_0) ∧ bonus draw7_0 = last current7)).
Proof.
  split; [reflexivity|]. split; [vm_compute; reflexivity|].
  apply (matching_decision history7 current7 UK49 0 row7_0 draw7_0);
    vm_compute; reflexivity.
Defined.






(** C4. On the variant-A scenario with history rows {1,2,3,4,5},
    {2,3,4,5,6}, {3,4,5,6,7} and current draw [2,3,4,5,9],
    [analyze_patterns] returns the counter 2:1, 3:2, 4:2, 5:2, 6:2, 7:1.
    The scan visits rows 0 and 1 only; each matches by the intersection rule
    alone and feeds its successor's numbers in once. *)
Theorem scenario_five_number :
  analyze_patterns history5 current5 SADaily
  = Some [(2%Z, 1); (3%Z, 2); (4%Z, 2); (5%Z, 2); (6%Z, 2); (7%Z, 1)] ∧
  range 0 (len history5 - 1) = [0; 1] ∧
  is_match history5 current5 SADaily 0 = Some true ∧
  is_match history5 current5 SADaily 1 = Some true ∧
  followers_of history5 current5 SADaily 0 = [2; 3; 4; 5; 6]%Z ∧
  followers_of history5 current5 SADaily 1 = [3; 4; 5; 6; 7]%Z ∧
  followers history5 current5 SADaily = [2; 3; 4; 5; 6; 3; 4; 5; 6; 7]%Z.
Proof. split_and!; vm_compute; reflexivity. Qed.



(** C6. The ranked output of the frequency stage and the split list of each
    target are the counter's entries by count descending, entries of equal
    count staying in the counter's own order, which is the order in which
    the keys were first seen in the scan (each key is held once). The main
    flow takes the first 7 entries of that ranking as targets and the first
    3 entries of each target's ranking as its splits. *)
Theorem ranked_outputs df cur top_targets gt raw m :
  analyze_patterns df cur gt = Some raw →
  analyze_splits df cur top_targets gt = Some m →
  (raw.*1 = first_seen (followers df cur gt) ∧ NoDup raw.*1 ∧
   ranks raw (sorted_desc raw) ∧
   top_targets_of raw = take 7 (sorted_desc raw).*1 ∧
   length (top_targets_of raw) = 7 `min` length raw) ∧
  ∀ t, t ∈ top_targets →
    ∃ c, m !! t = Some c ∧
      c.*1 = first_seen (keys_for t (split_events df cur top_targets gt)) ∧
      NoDup c.*1 ∧ ranks c (sorted_desc c) ∧
      splits_of m t = Some (take 3 (sorted_desc c)) ∧
      length (take 3 (sorted_desc c)) = 3 `min` length c.
Proof.
  intros Hraw Hm. split.
  - split_and!.
    + rewrite (analyze_patterns_trace _ _ _ _ Hraw). apply update_keys_first_seen.
    + rewrite (analyze_patterns_trace _ _ _ _ Hraw).
      apply update_keys_NoDup, NoDup_nil_2.
    + apply sorted_desc_ranks.
    + unfold top_targets_of, most_common. by rewrite fmap_take.
    + unfold top_targets_of. by rewrite length_fmap, most_common_length.
  - intros t Ht. pose proof (analyze_splits_trace _ _ _ _ _ Hm t) as Hc.
    rewrite decide_True in Hc by done. eexists. split; [exact Hc|]. split_and!.
    + apply update_keys_first_seen.
    + apply update_keys_NoDup, NoDup_nil_2.
    + apply sorted_desc_ranks.
    + unfold splits_of. by rewrite Hc.
    + apply (most_common_length 3).
Qed.

Lemma ranked_outputs_witness :
  analyze_patterns history5 current5 SADaily
  = Some [(2%Z, 1); (3%Z, 2); (4%Z, 2); (5%Z, 2); (6%Z, 2); (7%Z, 1)] ∧
  ∃ m, analyze_splits history5 current5 [3; 4; 5; 6; 2; 7]%Z SADaily = Some m ∧
    ranks [(2%Z, 1); (3%Z, 2); (4%Z, 2); (5%Z, 2); (6%Z, 2); (7%Z, 1)]
      (sorted_desc [(2%Z, 1); (3%Z, 2); (4%Z, 2); (5%Z, 2); (6%Z, 2); (7%Z, 1)]) ∧
    ∃ c, m !! 3%Z = Some c ∧ ranks c (sorted_desc c) ∧
      splits_of m 3%Z = Some (take 3 (sorted_desc c)).
Proof.
  assert (analyze_patterns history5 current5 SADaily
          = Some [(2%Z, 1); (3%Z, 2); (4%Z, 2); (5%Z, 2); (6%Z, 2); (7%Z, 1)])
    as Hraw by (vm_compute; reflexivity).
  split; [exact Hraw|].
  destruct (analyze_splits history5 current5 [3; 4; 5; 6; 2; 7]%Z SADaily)
    as [m|] eqn:Hm; [|by vm_compute in Hm].
  exists m. split; [done|].
  destruct (ranked_outputs history5 current5 [3; 4; 5; 6; 2; 7]%Z SADaily _ m
              Hraw Hm) as ((_ & _ & Hranks & _) & Hsplits).
  split; [exact Hranks|].
  destruct (Hsplits 3%Z) as (c & Hc & _ & _ & Hrc & Hsp & _); [by left|].
  exists c. by split_and!.
Defined.

(** C7. When no scanned row qualifies under the matching rule, and in
    particular when the history has fewer than 2 rows so that nothing is
    scanned, [analyze_patterns] returns the empty counter and
    [analyze_splits] returns an empty counter for every target, whose split
    list is empty; both return normally. *)
Theorem no_match_empty df cur top_targets gt :
  len df < 2 ∨
  (∀ i, i + 1 < len df →
     ∃ row d, iloc df i = Some row ∧ draw_of row gt = Some d ∧
       ¬ matches d cur gt) →
  analyze_patterns df cur gt = Some [] ∧
  ∃ m, analyze_splits df cur top_targets gt = Some m ∧
    ∀ t, t ∈ top_targets → m !! t = Some [] ∧ splits_of m t = Some [].
Proof.
  intros Hno.
  assert (∀ i, i ∈ range 0 (len df - 1) →
     ∃ row d, iloc df i = Some row ∧ draw_of row gt = Some d ∧
       ¬ matches d cur gt) as Hrows.
  { intros i Hi%elem_of_scan_range. destruct Hno as [Hshort|Hno]; [lia|eauto]. }
  clear Hno. split.
  - unfold analyze_patterns.
    destruct (for_each_invariant (patterns_body df cur gt) (λ c, c = [])
                (range 0 (len df - 1)) []) as (c & -> & ->); [done| |done].
    intros c i Hi ->. destruct (Hrows i Hi) as (row & d & Hrow & Hd & Hnm).
    rewrite (patterns_body_weight _ _ _ _ _ _ _ Hrow Hd).
    rewrite decide_True; [eauto|]. unfold weight, matches in *.
    rewrite !decide_False; [done|tauto|tauto].
  - unfold analyze_splits.
    destruct (for_each_invariant (splits_body df cur top_targets gt)
                (λ m, m = init_stats top_targets)
                (range 0 (len df - 1)) (init_stats top_targets))
      as (m & -> & ->); [done| |].
    + intros m i Hi ->. destruct (Hrows i Hi) as (row & d & Hrow & Hd & Hnm).
      unfold splits_body. rewrite (is_match_spec _ _ _ _ _ _ Hrow Hd).
      rewrite bool_decide_eq_false_2 by done. simpl. eauto.
    + eexists. split; [done|]. intros t Ht. unfold splits_of.
      by rewrite init_stats_lookup, decide_True.
Qed.

Lemma no_match_empty_witness :
  (∀ i, i + 1 < len history_far →
     ∃ row d, iloc history_far i = Some row ∧ draw_of row SADaily = Some d ∧
       ¬ matches d current5 SADaily) ∧
  analyze_patterns history_far current5 SADaily = Some [] ∧
  ∃ m, analyze_splits history_far current5 [3; 4]%Z SADaily = Some m ∧
    ∀ t, t ∈ [3; 4]%Z → m !! t = Some [] ∧ splits_of m t = Some [].
Proof.
  assert (∀ i, i + 1 < len history_far →
     ∃ row d, iloc history_far i = Some row ∧ draw_of row SADaily = Some d ∧
       ¬ matches d current5 SADaily) as Hno.
  { intros i Hi. change (len history_far) with 3 in Hi.
    destruct i as [|[|i]]; [| |lia].
    - exists {| index := cols5; vals := [11; 12; 13; 14; 15]%Z |},
        {| primary := [11; 12; 13; 14; 15]%Z; bonus := None |}.
      split_and!; [reflexivity|vm_compute; reflexivity|compute_done].
    - exists {| index := cols5; vals := [21; 22; 23; 24; 25]%Z |},
        {| primary := [21; 22; 23; 24; 25]%Z; bonus := None |}.
      split_and!; [reflexivity|vm_compute; reflexivity|compute_done]. }
  split; [exact Hno|].
  apply (no_match_empty history_far current5 [3; 4]%Z SADaily). by right.
Defined.



(** C9. Whenever [analyze_splits] returns, the keys of the returned
    dictionary are exactly the given targets, and every target has a
    counter, possibly empty; and it does return on every frame whose rows
    can be read (each label the variant reads is carried by exactly one
    column, no two columns are labelled Bonus in variant B, every row is
    full), whatever the history holds, and on every history too short to be
    scanned. *)
Theorem split_keys_are_targets df cur top_targets gt :
  (∀ m, analyze_splits df cur top_targets gt = Some m →
     dom m = list_to_set top_targets ∧
     ∀ t, t ∈ top_targets ↔ is_Some (m !! t)) ∧
  (wf_frame df gt → is_Some (analyze_splits df cur top_targets gt)) ∧
  (len df < 2 →
   analyze_splits df cur top_targets gt = Some (init_stats top_targets)).
Proof.
  split_and!.
  - intros m Hm.
    assert (∀ t, t ∈ top_targets ↔ is_Some (m !! t)) as Hkeys.
    { intros t. rewrite (analyze_splits_trace _ _ _ _ _ Hm t).
      destruct (decide (t ∈ top_targets)) as [Ht|Ht].
      - split; [by eexists|done].
      - split; [done|by intros [? ?]]. }
    split; [|done]. apply set_eq. intros t.
    by rewrite elem_of_dom, elem_of_list_to_set, Hkeys.
  - apply analyze_splits_total.
  - intros Hshort. unfold analyze_splits.
    replace (len df - 1) with 0 by lia. done.
Qed.

Lemma split_keys_are_targets_witness :
  wf_frame history7 UK49 ∧
  ∃ m, analyze_splits history7 current7 [1; 25]%Z UK49 = Some m ∧
    dom m = list_to_set [1; 25]%Z.
Proof.
  assert (wf_frame history7 UK49) as Hwf by compute_done.
  split; [exact Hwf|].
  destruct (split_keys_are_targets history7 current7 [1; 25]%Z UK49)
    as (Hdom & Htotal & _).
  destruct (Htotal Hwf) as [m Hm]. exists m. split; [exact Hm|].
  by apply Hdom.
Defined.

(** C10. On a dataset without a 'Bonus' column whose rows can be read
    (each of the labels N1 to N5, or N1 to N6, is carried by exactly one
    column and every row is full), the bonus rule fires in neither stage,
    whatever the variant and the length of the current draw: both scans
    return normally, and for every scanned row the draw has no bonus number,
    [is_match] is the intersection test on the primary numbers alone, and
    the loop body of [analyze_patterns] feeds the successor's numbers in
    once when that test succeeds and not at all otherwise. *)
Theorem no_bonus_column df cur top_targets gt :
  "Bonus" ∉ columns df → wf_frame df gt →
  is_Some (analyze_patterns df cur gt) ∧
  is_Some (analyze_splits df cur top_targets gt) ∧
  ∀ i, i + 1 < len df →
    ∃ row d nxt, iloc df i = Some row ∧ draw_of row gt = Some d ∧
      get_next_numbers_list df i gt = Some nxt ∧
      bonus d = None ∧ ¬ bonus_rule d cur gt ∧
      is_match df cur gt i
        = Some (bool_decide
                  (3 ≤ size (list_to_set (primary d) ∩ list_to_set cur : gset Z))) ∧
      ∀ c, patterns_body df cur gt c i
           = Some (if decide (3 ≤ size (list_to_set (primary d) ∩ list_to_set cur : gset Z))
                   then update c nxt else c).
Proof.
  intros Hcol Hwf. split; [by apply analyze_patterns_total|].
  split; [by apply analyze_splits_total|]. intros i Hi.
  destruct (draw_of_is_Some df gt i Hwf) as (row & d & Hrow & Hd); [lia|].
  destruct (next_numbers_is_Some df gt i Hwf) as [nxt Hnxt].
  assert (bonus d = None) as Hb.
  { destruct (draw_of_bonus _ _ _ Hd) as [(_ & Hin & _)|[_ ?]]; [|done].
    by rewrite (iloc_index _ _ _ Hrow) in Hin. }
  assert (¬ bonus_rule d cur gt) as Hnb.
  { unfold bonus_rule. rewrite Hb. by intros (_ & _ & [? ?] & _). }
  assert (intersection_rule d cur ↔
          3 ≤ size (list_to_set (primary d) ∩ list_to_set cur : gset Z)) as Hint.
  { unfold intersection_rule, DrawSet. rewrite Hb.
    by rewrite (right_id_L ∅ (∪)). }
  exists row, d, nxt. split_and!; try done.
  - rewrite (is_match_spec _ _ _ _ _ _ Hrow Hd). f_equal.
    apply bool_decide_ext. unfold matches. tauto.
  - intros c. rewrite (patterns_body_spec _ _ _ _ _ _ _ _ Hrow Hd Hnxt).
    f_equal. unfold weight.
    rewrite (decide_False (P := bonus_rule d cur gt)) by done.
    destruct (decide (intersection_rule d cur)) as [H1|H1].
    + by rewrite decide_True by by apply Hint.
    + by rewrite decide_False by by rewrite <- Hint.
Qed.

Lemma no_bonus_column_witness :
  ("Bonus" ∉ columns history6) ∧ wf_frame history6 UK49 ∧
  is_Some (analyze_patterns history6 current7 UK49) ∧
  is_Some (analyze_splits history6 current7 [1; 25]%Z UK49).
Proof.
  assert ("Bonus" ∉ columns history6) as Hcol by compute_done.
  assert (wf_frame history6 UK49) as Hwf by compute_done.
  split_and!; [done..| |];
    by apply (no_bonus_column history6 current7 [1; 25]%Z UK49 Hcol Hwf).
Defined.

(** * Further properties of the code *)

(** ** The frequency scan as a whole *)

Lemma followers_of_weight df cur gt i :
  followers_of df cur gt i
  = concat (replicate (row_weight df cur gt i) (NextNumbers df i gt)).
Proof.
  unfold followers_of, row_weight, NextNumbers.
  destruct (iloc df i ≫= _) as [d|]; [|reflexivity].
  destruct (get_next_numbers_list df i gt) as [nxt|]; simpl; [reflexivity|].
  induction (weight d cur gt) as [|w IH]; simpl; done.
Qed.

Lemma row_weight_read df cur gt i row d :
  iloc df i = Some row → draw_of row gt = Some d →
  row_weight df cur gt i = weight d cur gt.
Proof. intros Hrow Hd. unfold row_weight. rewrite Hrow. simpl. by rewrite Hd. Qed.

Lemma weight_pos d cur gt : 0 < weight d cur gt ↔ matches d cur gt.
Proof.
  unfold weight, matches.
  destruct (decide (intersection_rule d cur)),
    (decide (bonus_rule d cur gt)); split; (lia || tauto).
Qed.

Lemma row_weight_pos df cur gt i :
  0 < row_weight df cur gt i ↔
  ∃ row d, iloc df i = Some row ∧ draw_of row gt = Some d ∧ matches d cur gt.
Proof.
  unfold row_weight. destruct (iloc df i) as [row|]; simpl.
  - destruct (draw_of row gt) as [d|] eqn:Hd; simpl.
    + rewrite weight_pos. split.
      * intros Hm. by exists row, d.
      * intros (row' & d' & Hrow' & Hd' & Hm). congruence.
    + split; [lia|]. intros (row' & d' & Hrow' & Hd' & _). congruence.
  - split; [lia|]. by intros (? & ? & ? & _).
Qed.

(** X1. Up to the last row but one, [get_next_numbers_list] returns the
    primary numbers of the following row, and only those (the bonus is left
    out), rearranged in ascending order; from the last row on it returns the
    empty list without reading the frame. *)
Theorem next_numbers_sorted_successor df i gt :
  (len df ≤ i + 1 → get_next_numbers_list df i gt = Some []) ∧
  (∀ nxt, i + 1 < len df → get_next_numbers_list df i gt = Some nxt →
     ∃ row prim, iloc df (i + 1) = Some row ∧ primary_of row gt = Some prim ∧
       nxt ≡ₚ prim ∧ StronglySorted Z.le nxt ∧ length nxt = arity gt).
Proof.
  split.
  - intros Hi. unfold get_next_numbers_list. by rewrite decide_True.
  - intros nxt Hi Hnxt.
    pose proof (next_numbers_ascending _ _ _ _ Hnxt) as Hsorted.
    pose proof (next_numbers_length _ _ _ _ Hi Hnxt) as Hlen.
    unfold get_next_numbers_list in Hnxt.
    rewrite decide_False in Hnxt by lia.
    destruct (iloc df (i + 1)) as [row|]; [|done].
    cbn [mbind option_bind] in Hnxt. exists row. unfold primary_of.
    destruct gt; unfold arity;
      destruct (mapM _ _) as [prim|]; try done;
      injection Hnxt as <-; exists prim; split_and!; try done;
      apply merge_sort_Permutation.
Qed.

Lemma next_numbers_sorted_successor_witness :
  0 + 1 < len history7 ∧
  get_next_numbers_list history7 0 UK49 = Some next7 ∧
  ∃ row prim, iloc history7 (0 + 1) = Some row ∧
    primary_of row UK49 = Some prim ∧
    next7 ≡ₚ prim ∧ StronglySorted Z.le next7 ∧ length next7 = arity UK49.
Proof.
  assert (0 + 1 < len history7) as H0 by (vm_compute; lia).
  assert (get_next_numbers_list history7 0 UK49 = Some next7) as H1
    by (vm_compute; reflexivity).
  split_and!; [done..|].
  by apply (next_numbers_sorted_successor history7 0 UK49).
Defined.

Lemma elem_of_replicated {A} (x : A) n l :
  x ∈ concat (replicate n l) ↔ 0 < n ∧ x ∈ l.
Proof.
  induction n as [|n IH]; simpl.
  - rewrite elem_of_nil. split; [done|]. intros [? _]. lia.
  - rewrite elem_of_app, IH. split; [|naive_solver].
    intros [?|[_ ?]]; split; (lia || done).
Qed.

Lemma elem_of_followers df cur gt n :
  n ∈ followers df cur gt ↔
  ∃ i row d nxt, i + 1 < len df ∧ iloc df i = Some row ∧
    draw_of row gt = Some d ∧ matches d cur gt ∧
    get_next_numbers_list df i gt = Some nxt ∧ n ∈ nxt.
Proof.
  unfold followers. rewrite elem_of_concat. split.
  - intros (l & Hl & Hn). apply list_elem_of_fmap in Hl as (i & -> & Hi).
    apply elem_of_scan_range in Hi. rewrite followers_of_weight in Hn.
    apply elem_of_replicated in Hn as [Hw Hn].
    apply row_weight_pos in Hw as (row & d & Hrow & Hd & Hm).
    unfold NextNumbers in Hn.
    destruct (get_next_numbers_list df i gt) as [nxt|] eqn:Hnxt;
      [|by apply elem_of_nil in Hn].
    by exists i, row, d, nxt.
  - intros (i & row & d & nxt & Hi & Hrow & Hd & Hm & Hnxt & Hn).
    exists (followers_of df cur gt i). split.
    + apply list_elem_of_fmap. exists i. split; [done|].
      by apply elem_of_scan_range.
    + rewrite followers_of_weight. apply elem_of_replicated. split.
      * apply row_weight_pos. eauto.
      * unfold NextNumbers. by rewrite Hnxt.
Qed.

(** X2. The weight [analyze_patterns] returns for a number is the sum, over
    the scanned rows, of the row's weight (0, 1, 2 or 3) times the number of
    occurrences of the number among the successor's primary numbers. *)
Theorem predict_weight_sum df cur gt raw :
  analyze_patterns df cur gt = Some raw →
  ∀ n, counter_get raw n
       = sum_list ((λ i, row_weight df cur gt i * occ n (NextNumbers df i gt))
                   <$> range 0 (len df - 1)).
Proof.
  intros Hraw n. rewrite (analyze_patterns_trace _ _ _ _ Hraw).
  rewrite counter_get_stream. unfold followers.
  rewrite occ_concat, <- list_fmap_compose. f_equal.
  apply list_fmap_ext. intros _ i _. simpl.
  by rewrite followers_of_weight, occ_replicate.
Qed.

Lemma predict_weight_sum_witness :
  ∃ raw, analyze_patterns history7 current7 UK49 = Some raw ∧
    counter_get raw 10%Z
    = sum_list ((λ i, row_weight history7 current7 UK49 i
                      * occ 10%Z (NextNumbers history7 i UK49))
                <$> range 0 (len history7 - 1)).
Proof.
  destruct (analyze_patterns history7 current7 UK49) as [raw|] eqn:Hraw;
    [|by vm_compute in Hraw].
  exists raw. split; [done|].
  by apply (predict_weight_sum history7 current7 UK49 raw).
Defined.

(** X3. A number is a key of the counter returned by [analyze_patterns] if
    and only if it is one of the primary numbers of the successor of a
    scanned row that matches; such a key has a weight of at least 1. *)
Theorem predicted_numbers df cur gt raw :
  analyze_patterns df cur gt = Some raw →
  ∀ n,
    (n ∈ raw.*1 ↔
       ∃ i row d nxt, i + 1 < len df ∧ iloc df i = Some row ∧
         draw_of row gt = Some d ∧ matches d cur gt ∧
         get_next_numbers_list df i gt = Some nxt ∧ n ∈ nxt) ∧
    (n ∈ raw.*1 ↔ 1 ≤ counter_get raw n).
Proof.
  intros Hraw n. rewrite (analyze_patterns_trace _ _ _ _ Hraw).
  assert (n ∈ (update ([] : Counter Z) (followers df cur gt)).*1
          ↔ n ∈ followers df cur gt) as Hkey.
  { rewrite elem_of_update_keys, elem_of_nil. naive_solver. }
  split.
  - by rewrite Hkey, elem_of_followers.
  - rewrite Hkey, counter_get_stream, <- occ_pos. lia.
Qed.

Lemma predicted_numbers_witness :
  ∃ raw, analyze_patterns history7 current7 UK49 = Some raw ∧
    (10%Z ∈ raw.*1 ↔ 1 ≤ counter_get raw 10%Z).
Proof.
  destruct (analyze_patterns history7 current7 UK49) as [raw|] eqn:Hraw;
    [|by vm_compute in Hraw].
  exists raw. split; [done|].
  by apply (predicted_numbers history7 current7 UK49 raw).
Defined.

Lemma update_empty_iff {K} `{EqDecision K} (l : list K) :
  update ([] : Counter K) l = [] ↔ l = [].
Proof.
  split; [|by intros ->]. intros Hu. destruct l as [|x l]; [done|].
  assert (x ∈ (update ([] : Counter K) (x :: l)).*1) as Hin.
  { apply elem_of_update_keys. right. by left. }
  rewrite Hu in Hin. by apply elem_of_nil in Hin.
Qed.

(** X4. On a frame whose rows can be read (each label the variant reads
    is carried by exactly one column and every row is full),
    [analyze_patterns] returns the empty counter, the case in which the main flow warns that no historical
    patterns were found, if and only if no scanned row matches. *)
Theorem no_patterns_iff df cur gt :
  wf_frame df gt →
  ∃ raw, analyze_patterns df cur gt = Some raw ∧
    (raw = [] ↔
       ∀ i row d, i + 1 < len df → iloc df i = Some row →
         draw_of row gt = Some d → ¬ matches d cur gt).
Proof.
  intros Hwf. destruct (analyze_patterns_total df cur gt Hwf) as [raw Hraw].
  exists raw. split; [done|].
  rewrite (analyze_patterns_trace _ _ _ _ Hraw), update_empty_iff. split.
  - intros Hnil i row d Hi Hrow Hd Hm.
    destruct (next_numbers_is_Some df gt i Hwf) as [nxt Hnxt].
    pose proof (next_numbers_length _ _ _ _ Hi Hnxt) as Hlen.
    destruct nxt as [|n nxt]; [destruct gt; simpl in Hlen; lia|].
    assert (n ∈ followers df cur gt) as Hn.
    { apply elem_of_followers. exists i, row, d, (n :: nxt).
      split_and!; try done. by left. }
    rewrite Hnil in Hn. by apply elem_of_nil in Hn.
  - intros Hno. destruct (followers df cur gt) as [|n l] eqn:Hf; [done|].
    assert (n ∈ followers df cur gt) as Hn by (rewrite Hf; by left).
    apply elem_of_followers in Hn
      as (i & row & d & nxt & Hi & Hrow & Hd & Hm & _).
    by destruct (Hno i row d).
Qed.

Lemma no_patterns_iff_witness :
  wf_frame history_far SADaily ∧
  ∃ raw, analyze_patterns history_far current5 SADaily = Some raw ∧
    (raw = [] ↔
       ∀ i row d, i + 1 < len history_far → iloc history_far i = Some row →
         draw_of row SADaily = Some d → ¬ matches d current5 SADaily).
Proof.
  assert (wf_frame history_far SADaily) as Hwf by compute_done.
  split; [exact Hwf|].
  by apply (no_patterns_iff history_far current5 SADaily).
Defined.

(** ** How the current draw is used *)

Lemma patterns_body_current df cur cur' gt c i :
  list_to_set cur =@{gset Z} list_to_set cur' →
  (gt = UK49 → (6 < length cur ↔ 6 < length cur') ∧
                (6 < length cur → last cur = last cur')) →
  patterns_body df cur gt c i = patterns_body df cur' gt c i.
Proof.
  intros Hset Hlast. unfold patterns_body. cbv zeta. rewrite Hset.
  destruct (decide (gt = UK49 ∧ 6 < length cur)) as [[Hgt Hlen]|Hno],
    (decide (gt = UK49 ∧ 6 < length cur')) as [[Hgt' Hlen']|Hno'].
  - destruct (Hlast Hgt) as [_ Heq]. by rewrite (Heq Hlen).
  - destruct Hno'. split; [done|]. by apply (Hlast Hgt).
  - destruct Hno. split; [done|]. by apply (Hlast Hgt').
  - done.
Qed.

Lemma is_match_current df cur cur' gt i :
  list_to_set cur =@{gset Z} list_to_set cur' →
  (gt = UK49 → (6 < length cur ↔ 6 < length cur') ∧
                (6 < length cur → last cur = last cur')) →
  is_match df cur gt i = is_match df cur' gt i.
Proof.
  intros Hset Hlast. unfold is_match. cbv zeta. rewrite Hset.
  destruct (decide (gt = UK49 ∧ 6 < length cur)) as [[Hgt Hlen]|Hno],
    (decide (gt = UK49 ∧ 6 < length cur')) as [[Hgt' Hlen']|Hno'].
  - destruct (Hlast Hgt) as [_ Heq]. by rewrite (Heq Hlen).
  - destruct Hno'. split; [done|]. by apply (Hlast Hgt).
  - destruct Hno. split; [done|]. by apply (Hlast Hgt').
  - done.
Qed.

(** X5. Both scans use the current draw only through the set of its
    numbers and, in variant B, through whether it has more than 6 entries
    and, if so, which entry is last: two current draws that agree on these
    give the same results. In variant A the order and the repetitions of the
    entered numbers are therefore of no effect. *)
Theorem current_draw_as_set df cur cur' top_targets gt :
  list_to_set cur =@{gset Z} list_to_set cur' →
  (gt = UK49 → (6 < length cur ↔ 6 < length cur') ∧
                (6 < length cur → last cur = last cur')) →
  analyze_patterns df cur gt = analyze_patterns df cur' gt ∧
  analyze_splits df cur top_targets gt = analyze_splits df cur' top_targets gt.
Proof.
  intros Hset Hlast. split.
  - unfold analyze_patterns. apply for_each_ext. intros c i _.
    by apply patterns_body_current.
  - unfold analyze_splits. apply for_each_ext. intros m i _.
    unfold splits_body. by rewrite (is_match_current df cur cur').
Qed.

Lemma current_draw_as_set_witness :
  list_to_set [9; 5; 4; 3; 2; 2]%Z =@{gset Z} list_to_set current5 ∧
  analyze_patterns history5 [9; 5; 4; 3; 2; 2]%Z SADaily
  = analyze_patterns history5 current5 SADaily ∧
  analyze_splits history5 [9; 5; 4; 3; 2; 2]%Z [3; 4]%Z SADaily
  = analyze_splits history5 current5 [3; 4]%Z SADaily.
Proof.
  assert (list_to_set [9; 5; 4; 3; 2; 2]%Z =@{gset Z} list_to_set current5)
    as Hset by compute_done.
  split; [exact Hset|].
  apply (current_draw_as_set history5 [9; 5; 4; 3; 2; 2]%Z current5
           [3; 4]%Z SADaily Hset).
  intros Hgt. discriminate Hgt.
Defined.

(** ** Runs in which no row matches *)

Lemma patterns_no_match df cur gt :
  (∀ i, i + 1 < len df →
     ∃ row d, iloc df i = Some row ∧ draw_of row gt = Some d ∧
       ¬ matches d cur gt) →
  analyze_patterns df cur gt = Some [].
Proof.
  intros Hrows. unfold analyze_patterns.
  destruct (for_each_invariant (patterns_body df cur gt) (λ c, c = [])
              (range 0 (len df - 1)) []) as (c & -> & ->); [done| |done].
  intros c i Hi%elem_of_scan_range ->.
  destruct (Hrows i Hi) as (row & d & Hrow & Hd & Hnm).
  rewrite (patterns_body_weight _ _ _ _ _ _ _ Hrow Hd).
  rewrite decide_True; [eauto|].
  pose proof (weight_pos d cur gt) as Hw.
  destruct (weight d cur gt); [done|]. exfalso. apply Hnm, Hw. lia.
Qed.

Lemma splits_no_match df cur top_targets gt :
  (∀ i, i + 1 < len df →
     ∃ row d, iloc df i = Some row ∧ draw_of row gt = Some d ∧
       ¬ matches d cur gt) →
  analyze_splits df cur top_targets gt = Some (init_stats top_targets).
Proof.
  intros Hrows. unfold analyze_splits.
  destruct (for_each_invariant (splits_body df cur top_targets gt)
              (λ m, m = init_stats top_targets)
              (range 0 (len df - 1)) (init_stats top_targets))
    as (m & -> & ->); [done| |done].
  intros m i Hi%elem_of_scan_range ->.
  destruct (Hrows i Hi) as (row & d & Hrow & Hd & Hnm).
  unfold splits_body. rewrite (is_match_spec _ _ _ _ _ _ Hrow Hd).
  rewrite bool_decide_eq_false_2 by done. simpl. eauto.
Qed.

(** X6. A current draw with fewer than 3 distinct numbers can never reach
    the threshold of the intersection rule, and one with at most 6 entries
    never reaches the bonus rule. So on a readable frame (each label the
    variant reads is carried by exactly one column and every row is full)
    such an entry, for instance a lone bonus number, finds nothing: the
    frequency counter comes back empty and every target's split counter is
    empty. *)
Theorem short_current_draw_finds_nothing df cur top_targets gt :
  wf_frame df gt →
  size (list_to_set cur : gset Z) < 3 →
  gt = SADaily ∨ length cur ≤ 6 →
  analyze_patterns df cur gt = Some [] ∧
  analyze_splits df cur top_targets gt = Some (init_stats top_targets) ∧
  ∀ t, t ∈ top_targets → init_stats top_targets !! t = Some [].
Proof.
  intros Hwf Hsize Hshort.
  assert (∀ i, i + 1 < len df →
     ∃ row d, iloc df i = Some row ∧ draw_of row gt = Some d ∧
       ¬ matches d cur gt) as Hrows.
  { intros i Hi. destruct (draw_of_is_Some df gt i Hwf) as (row & d & Hrow & Hd);
      [lia|]. exists row, d. split_and!; try done.
    intros [Hint|(Hgt & Hlen & _)].
    - unfold intersection_rule in Hint.
      assert (size (DrawSet d ∩ list_to_set cur) ≤ size (list_to_set cur : gset Z))
        as Hle by (apply subseteq_size; set_solver).
      lia.
    - destruct Hshort as [->|?]; [done|lia]. }
  split_and!.
  - by apply patterns_no_match.
  - by apply splits_no_match.
  - intros t Ht. by rewrite init_stats_lookup, decide_True.
Qed.

Lemma short_current_draw_finds_nothing_witness :
  wf_frame history7 UK49 ∧ size (list_to_set [7%Z] : gset Z) < 3 ∧
  analyze_patterns history7 [7%Z] UK49 = Some [] ∧
  analyze_splits history7 [7%Z] [1; 25]%Z UK49 = Some (init_stats [1; 25]%Z).
Proof.
  assert (wf_frame history7 UK49) as Hwf by compute_done.
  assert (size (list_to_set [7%Z] : gset Z) < 3) as Hsize by compute_done.
  split_and!; [done..| |];
    apply (short_current_draw_finds_nothing history7 [7%Z] [1; 25]%Z UK49
             Hwf Hsize); right; simpl; lia.
Defined.

(** ** Longer histories *)

Lemma extend_len df later : len (extend df later) = len df + length later.
Proof. unfold len, extend. simpl. by rewrite length_app. Qed.

Lemma extend_iloc df later i :
  i < len df → iloc (extend df later) i = iloc df i.
Proof.
  intros Hi. unfold iloc, extend. simpl. by rewrite lookup_app_l.
Qed.

Lemma extend_next df later i gt :
  i + 1 < len df →
  get_next_numbers_list (extend df later) i gt = get_next_numbers_list df i gt.
Proof.
  intros Hi. unfold get_next_numbers_list.
  rewrite extend_len, extend_iloc by done.
  by rewrite !decide_False by lia.
Qed.

Lemma extend_patterns_body df later cur gt c i :
  i + 1 < len df →
  patterns_body (extend df later) cur gt c i = patterns_body df cur gt c i.
Proof.
  intros Hi. unfold patterns_body.
  rewrite extend_next by done. by rewrite extend_iloc by lia.
Qed.

Lemma extend_scan_range df later :
  range 0 (len (extend df later) - 1)
  = range 0 (len df - 1)
    ++ seq (len df - 1) (len (extend df later) - 1 - (len df - 1)).
Proof.
  rewrite !range_0, extend_len, <- seq_app. f_equal. lia.
Qed.

Lemma update_keys_prefix {K} `{EqDecision K} (c : Counter K) l :
  c.*1 `prefix_of` (update c l).*1.
Proof.
  rewrite update_keys. generalize (c.*1). clear c.
  induction l as [|x l IH]; intros acc; simpl; [done|].
  destruct (decide (x ∈ acc)); [apply IH|].
  etrans; [|apply IH]. by apply prefix_app_r.
Qed.

(** X7. Appending draws to a history leaves the earlier part of the
    frequency scan untouched: if [analyze_patterns] returns on the longer
    history it returns on the shorter one, the keys of the shorter result
    are, in the same order, the first keys of the longer result, and no
    weight is lower in the longer result. *)
Theorem history_extension df later cur gt raw' :
  analyze_patterns (extend df later) cur gt = Some raw' →
  ∃ raw, analyze_patterns df cur gt = Some raw ∧
    raw.*1 `prefix_of` raw'.*1 ∧
    ∀ n, counter_get raw n ≤ counter_get raw' n.
Proof.
  unfold analyze_patterns. rewrite extend_scan_range, for_each_app.
  intros Hrun. apply bind_Some in Hrun as (raw & Hraw & Hrest).
  exists raw. split.
  - rewrite <- Hraw. apply for_each_ext. intros c i Hi%elem_of_scan_range.
    symmetry. by apply extend_patterns_body.
  - assert (raw' = update raw
              (concat (followers_of (extend df later) cur gt
                       <$> seq (len df - 1)
                             (len (extend df later) - 1 - (len df - 1)))))
      as ->.
    { revert Hrest.
      apply (for_each_trace _ (followers_of (extend df later) cur gt)
               (λ c es c', c' = update c es)).
      - done.
      - intros c1 c2 c3 e1 e2 -> ->. by rewrite update_app.
      - intros c i c' _. apply patterns_body_trace. }
    split; [apply update_keys_prefix|].
    intros n. rewrite counter_get_update. lia.
Qed.

Lemma history_extension_witness :
  ∃ raw', analyze_patterns (extend history5 [[4; 5; 6; 7; 8]%Z]) current5 SADaily
          = Some raw' ∧
    ∃ raw, analyze_patterns history5 current5 SADaily = Some raw ∧
      raw.*1 `prefix_of` raw'.*1 ∧
      ∀ n, counter_get raw n ≤ counter_get raw' n.
Proof.
  destruct (analyze_patterns (extend history5 [[4; 5; 6; 7; 8]%Z]) current5
              SADaily) as [raw'|] eqn:Hraw'; [|by vm_compute in Hraw'].
  exists raw'. split; [done|].
  by apply (history_extension history5 [[4; 5; 6; 7; 8]%Z] current5 SADaily).
Defined.

(** ** Unreadable frames *)

Lemma get_loc_None name cols : name ∉ cols → get_loc name cols = None.
Proof.
  induction cols as [|c cs IH]; simpl; [done|].
  rewrite elem_of_cons. intros Hn.
  rewrite decide_False by naive_solver. rewrite IH by naive_solver. done.
Qed.

Lemma get_row_numbers_missing row gt k :
  k ∈ range 1 (S (arity gt)) → N_col k ∉ index row →
  get_row_numbers row gt = None.
Proof.
  intros Hk Hcol.
  assert (mapM (λ k, getitem row (N_col k)) (range 1 (S (arity gt))) = None)
    as Hm.
  { apply mapM_None_2, Exists_exists. exists k. split; [done|].
    unfold getitem. by rewrite get_loc_None. }
  unfold get_row_numbers. destruct gt; unfold arity in Hm; by rewrite Hm.
Qed.






(** X8. When one of the primary-number columns the variant reads (N1 to N5,
    or N1 to N6) is missing and the history has at least 2 rows, both scans
    fail on the very first row with the lookup error of the missing label;
    neither returns a result. *)
Theorem missing_primary_column df cur top_targets gt k :
  k ∈ range 1 (S (arity gt)) → N_col k ∉ columns df → 2 ≤ len df →
  analyze_patterns df cur gt = None ∧
  analyze_splits df cur top_targets gt = None.
Proof.
  intros Hk Hcol Hlen.
  destruct (iloc_Some df 0) as (r & _ & Hrow); [lia|].
  assert (get_row_numbers {| index := columns df; vals := r |} gt = None)
    as Hset by by apply (get_row_numbers_missing _ _ k).
  unfold analyze_patterns, analyze_splits.
  assert (range 0 (len df - 1) = 0 :: seq 1 (len df - 2)) as ->.
  { rewrite range_0. destruct (len df) as [|[|n]]; [lia..|].
    simpl. by rewrite Nat.sub_0_r. }
  simpl. split.
  - unfold patterns_body. rewrite Hrow. simpl. by rewrite Hset.
  - unfold splits_body, is_match. rewrite Hrow. simpl. by rewrite Hset.
Qed.

Lemma missing_primary_column_witness :
  6 ∈ range 1 (S (arity UK49)) ∧ (N_col 6 ∉ columns history5) ∧
  2 ≤ len history5 ∧
  analyze_patterns history5 current7 UK49 = None ∧
  analyze_splits history5 current7 [1; 25]%Z UK49 = None.
Proof.
  assert (6 ∈ range 1 (S (arity UK49))) as H1 by compute_done.
  assert (N_col 6 ∉ columns history5) as H2 by compute_done.
  assert (2 ≤ len history5) as H3 by (vm_compute; lia).
  split_and!; [done..| |];
    by apply (missing_primary_column history5 current7 [1; 25]%Z UK49 6).
Defined.

(** ** Counting split entries *)

(** X9. The count [analyze_splits] returns for the entry [(a, b, rel)] of a
    target is 0 when the entry's test, as the code computes it on 64-bit
    integers, fails for the target, and otherwise the number of times the
    pair occurs among the pairs of the successors of the matching rows,
    multiplied by the number of times the target is listed in
    [top_targets]: a target listed twice has every count doubled. On a
    history of small numbers the test is the exact equality [|a - b| = t],
    respectively [a + b = t]. *)
Theorem split_count df cur top_targets gt m t (c : Counter split_key) a b rel :
  analyze_splits df cur top_targets gt = Some m → m !! t = Some c →
  counter_get c (a, b, rel)
  = occ t top_targets * pair_hits df cur gt a b
    * (if decide (relation_holds rel a b t) then 1 else 0) ∧
  (small_cells df →
   counter_get c (a, b, rel)
   = occ t top_targets * pair_hits df cur gt a b
     * (if decide (relation_exact rel a b t) then 1 else 0)).
Proof.
  intros Hm Hc. rewrite (analyze_splits_trace _ _ _ _ _ Hm t) in Hc.
  destruct (decide (t ∈ top_targets)); [|done]. injection Hc as <-.
  rewrite counter_get_stream, occ_keys_for, occ_split_events.
  split; [done|]. intros Hsmall.
  destruct (decide (0 < pair_hits df cur gt a b)) as [Hpos|Hzero];
    [|replace (pair_hits df cur gt a b) with 0 by lia; lia].
  destruct (pair_hits_small _ _ _ _ _ Hsmall Hpos) as [Ha Hb].
  pose proof (relation_holds_small rel a b t Ha Hb) as Hrel.
  destruct (decide (relation_holds rel a b t)),
    (decide (relation_exact rel a b t)); tauto.
Qed.

Lemma split_count_witness :
  small_cells history7 ∧
  ∃ m c, analyze_splits history7 current7 [1; 25; 1]%Z UK49 = Some m ∧
    m !! 1%Z = Some c ∧
    counter_get c (10, 11, Diff)%Z
    = occ 1%Z [1; 25; 1]%Z * pair_hits history7 current7 UK49 10 11
      * (if decide (relation_exact Diff 10 11 1) then 1 else 0).
Proof.
  assert (small_cells history7) as Hsmall by compute_done.
  split; [exact Hsmall|].
  destruct (analyze_splits history7 current7 [1; 25; 1]%Z UK49) as [m|] eqn:Hm;
    [|by vm_compute in Hm].
  destruct (m !! 1%Z) as [c|] eqn:Hc.
  - exists m, c. split_and!; [done..|].
    by apply (split_count history7 current7 [1; 25; 1]%Z UK49 m 1%Z c).
  - exfalso. vm_compute in Hm. injection Hm as <-. by vm_compute in Hc.
Defined.

(** ** One target at a time *)

Lemma keys_for_nil t : keys_for t [] = [].
Proof. done. Qed.

Lemma keys_for_pairs_other t t' pairs :
  t' ≠ t → keys_for t (concat (pair_events t' <$> pairs)) = [].
Proof.
  intros Hne. induction pairs as [|[a b] pairs IH]; [done|].
  rewrite fmap_cons. cbn [concat]. rewrite keys_for_app, IH, app_nil_r.
  unfold pair_events, keys_for. cbn [fst snd].
  destruct (decide (abs64 (sub64 a b) = t')), (decide (add64 a b = t'));
    cbn [app]; rewrite ?filter_cons_False, ?filter_nil by done; done.
Qed.

Lemma keys_for_scan_events t top_targets pairs :
  keys_for t (scan_events top_targets pairs)
  = concat (replicate (occ t top_targets)
              (keys_for t (concat (pair_events t <$> pairs)))).
Proof.
  unfold scan_events. induction top_targets as [|t' T IH]; [done|].
  rewrite fmap_cons. cbn [concat]. rewrite keys_for_app, IH, occ_cons.
  destruct (decide (t' = t)) as [->|Hne]; [done|].
  by rewrite keys_for_pairs_other.
Qed.

Lemma keys_for_split_events t df cur T T' gt :
  occ t T = occ t T' →
  keys_for t (split_events df cur T gt) = keys_for t (split_events df cur T' gt).
Proof.
  intros Hocc. unfold split_events.
  induction (range 0 (len df - 1)) as [|i l IH]; [done|].
  rewrite !fmap_cons. cbn [concat]. rewrite !keys_for_app, IH. f_equal.
  unfold row_events. destruct (is_match df cur gt i) as [[|]|]; try done.
  destruct (get_next_numbers_list df i gt) as [nxt|]; [|done].
  by rewrite !keys_for_scan_events, Hocc.
Qed.

(** X10. The counter [analyze_splits] returns for a target does not depend
    on which other targets are analysed with it, only on how many times the
    target itself is listed: two runs on the same history and current draw
    that list the target equally often return the same counter for it,
    entries, counts and order alike. *)
Theorem split_target_independent df cur T T' gt m m' t :
  analyze_splits df cur T gt = Some m →
  analyze_splits df cur T' gt = Some m' →
  occ t T = occ t T' →
  m !! t = m' !! t.
Proof.
  intros Hm Hm' Hocc.
  rewrite (analyze_splits_trace _ _ _ _ _ Hm t).
  rewrite (analyze_splits_trace _ _ _ _ _ Hm' t).
  rewrite (keys_for_split_events t df cur T T' gt Hocc).
  destruct (decide (t ∈ T)) as [Hin|Hnin], (decide (t ∈ T')) as [Hin'|Hnin'];
    try done.
  - apply occ_pos in Hin. apply occ_zero in Hnin'. lia.
  - apply occ_pos in Hin'. apply occ_zero in Hnin. lia.
Qed.

Lemma split_target_independent_witness :
  ∃ m m', analyze_splits history7 current7 [1; 25]%Z UK49 = Some m ∧
    analyze_splits history7 current7 [1%Z] UK49 = Some m' ∧
    occ 1%Z [1; 25]%Z = occ 1%Z [1%Z] ∧ m !! 1%Z = m' !! 1%Z.
Proof.
  destruct (analyze_splits history7 current7 [1; 25]%Z UK49) as [m|] eqn:Hm;
    [|by vm_compute in Hm].
  destruct (analyze_splits history7 current7 [1%Z] UK49) as [m'|] eqn:Hm';
    [|by vm_compute in Hm'].
  assert (occ 1%Z [1; 25]%Z = occ 1%Z [1%Z]) as Hocc by reflexivity.
  exists m, m'. split_and!; [done..|].
  by apply (split_target_independent history7 current7 [1; 25]%Z [1%Z] UK49).
Defined.

(** ** The pairs of a draw *)

Lemma combinations2_length l :
  2 * length (combinations2 l) = length l * (length l - 1).
Proof.
  induction l as [|x l IH]; simpl; [done|].
  rewrite length_app, length_map, Nat.sub_0_r.
  destruct l as [|y l]; simpl in *; lia.
Qed.

(** X11. The pairs scanned for a successor draw are exactly the pairs of
    two entries of NextNumbers at different positions, the earlier entry
    first; for a scanned row there are 10 of them in variant A and 15 in
    variant B. *)
Theorem pairs_of_successor df i gt nxt :
  i + 1 < len df → get_next_numbers_list df i gt = Some nxt →
  (∀ a b, (a, b) ∈ combinations2 nxt ↔
          ∃ p q, p < q ∧ nxt !! p = Some a ∧ nxt !! q = Some b) ∧
  length (combinations2 nxt) = match gt with SADaily => 10 | UK49 => 15 end.
Proof.
  intros Hi Hnxt. split; [intros a b; apply elem_of_combinations2|].
  pose proof (next_numbers_length _ _ _ _ Hi Hnxt) as Hlen.
  pose proof (combinations2_length nxt) as Hpairs. rewrite Hlen in Hpairs.
  destruct gt; simpl in Hpairs; lia.
Qed.

Lemma pairs_of_successor_witness :
  0 + 1 < len history7 ∧
  get_next_numbers_list history7 0 UK49 = Some next7 ∧
  length (combinations2 next7) = 15.
Proof.
  assert (0 + 1 < len history7) as H0 by (vm_compute; lia).
  assert (get_next_numbers_list history7 0 UK49 = Some next7) as H1
    by (vm_compute; reflexivity).
  split_and!; [done..|].
  by apply (pairs_of_successor history7 0 UK49 next7).
Defined.

(** ** Splits of positive numbers *)

(** X12. On a history whose numbers are all positive and small, a Sum
    entry [(a, b)] of a target [t] has both numbers strictly between 0 and
    [t], a Difference entry has [b = a + t] with [t] not negative, and no
    pair is ever reported under both relations for the same target. *)
Theorem splits_of_positive_numbers df cur top_targets gt m :
  analyze_splits df cur top_targets gt = Some m →
  Forall (Forall (λ z, (0 < z)%Z)) (values df) →
  small_cells df →
  ∀ t a b,
    (reported m t (a, b, Sum) → (0 < a < t)%Z ∧ (0 < b < t)%Z) ∧
    (reported m t (a, b, Diff) → (0 ≤ t)%Z ∧ b = (a + t)%Z) ∧
    ¬ (reported m t (a, b, Diff) ∧ reported m t (a, b, Sum)).
Proof.
  intros Hm Hpos Hsmall t a b.
  assert (∀ rel, reported m t (a, b, rel) →
            (0 < a)%Z ∧ (0 < b)%Z ∧ (a ≤ b)%Z ∧ relation_exact rel a b t)
    as Hfacts.
  { intros rel Hrep.
    destruct (reported_pair _ _ _ _ _ _ _ _ _ Hm Hrep) as [Hpair Hrel].
    destruct (pair_small _ _ _ _ _ _ _ Hsmall Hpair) as [Hsa Hsb].
    apply (relation_holds_small rel a b t Hsa Hsb) in Hrel.
    destruct Hpair as (_ & i & nxt & _ & _ & Hn & Hp).
    pose proof (combinations2_ascending nxt a b
                  (next_numbers_ascending _ _ _ _ Hn) Hp) as Hle.
    destruct (combinations2_elems _ _ _ Hp) as [Ha Hb].
    destruct (next_numbers_values _ _ _ _ _ Hn Ha) as (ra & Hra & Hain).
    destruct (next_numbers_values _ _ _ _ _ Hn Hb) as (rb & Hrb & Hbin).
    pose proof (proj1 (Forall_forall _ _) Hpos ra Hra) as Hpa.
    pose proof (proj1 (Forall_forall _ _) Hpos rb Hrb) as Hpb.
    split_and!; try done.
    - by apply (proj1 (Forall_forall _ _) Hpa).
    - by apply (proj1 (Forall_forall _ _) Hpb). }
  split_and!.
  - intros (Ha & Hb & _ & Hrel)%Hfacts. simpl in Hrel. lia.
  - intros (_ & _ & Hle & Hrel)%Hfacts. simpl in Hrel. lia.
  - intros [(Ha & _ & Hle & Hd)%Hfacts (_ & _ & _ & Hs)%Hfacts].
    simpl in Hd, Hs. lia.
Qed.

Lemma splits_of_positive_numbers_witness :
  Forall (Forall (λ z, (0 < z)%Z)) (values history7) ∧
  small_cells history7 ∧
  ∃ m, analyze_splits history7 current7 [1; 25]%Z UK49 = Some m ∧
    (reported m 25 (10, 15, Sum)%Z → (0 < 10 < 25)%Z ∧ (0 < 15 < 25)%Z) ∧
    ¬ (reported m 25 (10, 15, Diff)%Z ∧ reported m 25 (10, 15, Sum)%Z).
Proof.
  assert (Forall (Forall (λ z, (0 < z)%Z)) (values history7)) as Hpos
    by compute_done.
  assert (small_cells history7) as Hsmall by compute_done.
  split; [exact Hpos|]. split; [exact Hsmall|].
  destruct (analyze_splits history7 current7 [1; 25]%Z UK49) as [m|] eqn:Hm;
    [|by vm_compute in Hm].
  exists m. split; [reflexivity|].
  destruct (splits_of_positive_numbers history7 current7 [1; 25]%Z UK49 m Hm
              Hpos Hsmall 25%Z 10%Z 15%Z) as (Hs & _ & Hboth).
  split; [exact Hs|exact Hboth].
Defined.

(** ** The main flow *)





#[global] Instance by_count_desc_trans {K} : Transitive (@by_count_desc K).
Proof. intros x y z. unfold by_count_desc. lia. Qed.

Lemma Sorted_take_desc {K} (n : nat) (l : Counter K) :
  Sorted by_count_desc l → Sorted by_count_desc (take n l).
Proof.
  intros Hs%Sorted_StronglySorted; [|apply _].
  apply StronglySorted_Sorted.
  rewrite <- (take_drop n l) in Hs. by apply StronglySorted_app_1_l in Hs.
Qed.

Lemma counter_get_elem {K} `{EqDecision K} (c : Counter K) k n :
  NoDup c.*1 → (k, n) ∈ c → counter_get c k = n.
Proof.
  induction c as [|[k0 n0] c IH]; simpl; intros Hnd Hin.
  - by apply elem_of_nil in Hin.
  - apply NoDup_cons in Hnd as [Hk0 Hnd].
    apply elem_of_cons in Hin as [[= <- <-]|Hin].
    + by rewrite decide_True.
    + rewrite decide_False; [by apply IH|]. intros ->. apply Hk0.
      apply list_elem_of_fmap. by exists (k, n).
Qed.

Lemma stream_entry {K} `{EqDecision K} (l : list K) k n :
  (k, n) ∈ update ([] : Counter K) l → n = occ k l ∧ 1 ≤ n ∧ k ∈ l.
Proof.
  intros Hin.
  assert (k ∈ (update ([] : Counter K) l).*1) as Hk.
  { apply list_elem_of_fmap. by exists (k, n). }
  pose proof (counter_get_elem _ _ _
                (update_keys_NoDup [] l (NoDup_nil_2)) Hin) as Hget.
  rewrite counter_get_stream in Hget.
  apply elem_of_update_keys in Hk as [Hk|Hk]; [by apply elem_of_nil in Hk|].
  pose proof (proj2 (occ_pos k l) Hk). split_and!; [done|lia|done].
Qed.

Lemma most_common_elem {K} `{EqDecision K} n (c : Counter K) e :
  e ∈ most_common n c → e ∈ c.
Proof.
  unfold most_common. intros He%subseteq_take.
  destruct (sorted_desc_ranks c) as (Hp & _). by rewrite <- Hp.
Qed.

Lemma most_common_NoDup {K} `{EqDecision K} n (c : Counter K) :
  NoDup c.*1 → NoDup (most_common n c).*1.
Proof.
  intros Hnd. unfold most_common. rewrite fmap_take.
  apply (sublist_NoDup _ (sorted_desc c).*1); [|apply sublist_take].
  destruct (sorted_desc_ranks c) as (Hp & _). by rewrite Hp.
Qed.

Lemma most_common_Sorted {K} `{EqDecision K} n (c : Counter K) :
  Sorted by_count_desc (most_common n c).
Proof.
  apply Sorted_take_desc. by destruct (sorted_desc_ranks c) as (_ & Hs & _).
Qed.

Lemma most_common_dominates {K} `{EqDecision K} n (c : Counter K) e e' :
  e ∈ most_common n c → e' ∈ c → e' ∉ most_common n c → e'.2 ≤ e.2.
Proof.
  unfold most_common. intros He He' Hne'.
  destruct (sorted_desc_ranks c) as (Hp & Hs & _).
  apply Sorted_StronglySorted in Hs; [|apply _].
  rewrite <- Hp, <- (take_drop n (sorted_desc c)) in He'.
  apply elem_of_app in He' as [?|He']; [done|].
  rewrite <- (take_drop n (sorted_desc c)) in Hs.
  by apply (StronglySorted_app_1_elem_of _ _ _ e e' Hs).
Qed.

Lemma most_common_nil_inv {K} `{EqDecision K} n (c : Counter K) :
  0 < n → most_common n c = [] → c = [].
Proof.
  unfold most_common. intros Hn Hnil.
  destruct (sorted_desc_ranks c) as (Hp & _).
  destruct (sorted_desc c) as [|e l]; [by apply Permutation_nil|].
  destruct n; [lia|done].
Qed.

(** X14. When the main flow shows results, the ranked targets are between 1
    and 7 entries of the counter [analyze_patterns] returned, each with its
    own weight, which is at least 1; no number is shown twice, the hits
    never increase down the ranks, and no entry left out has more hits than
    an entry shown. *)
Theorem shown_ranks df cur gt ranks panels :
  run_split_analysis df cur gt = Shown ranks panels →
  ∃ raw, analyze_patterns df cur gt = Some raw ∧
    1 ≤ length ranks ∧ length ranks = 7 `min` length raw ∧
    NoDup ranks.*1 ∧ Sorted by_count_desc ranks ∧
    (∀ k n, (k, n) ∈ ranks → (k, n) ∈ raw ∧ counter_get raw k = n ∧ 1 ≤ n) ∧
    (∀ e e', e ∈ ranks → e' ∈ raw → e' ∉ ranks → e'.2 ≤ e.2).
Proof.
  unfold run_split_analysis.
  destruct (analyze_patterns df cur gt) as [raw|] eqn:Hraw; [|done].
  destruct raw as [|e0 raw0] eqn:Eraw; [done|]. rewrite <- Eraw in *. cbv zeta.
  destruct (analyze_splits df cur (top_targets_of raw) gt) as [m|]; [|done].
  destruct (mapM (show_target m) (top_targets_of raw)) as [ps|]; [|done].
  intros [= <- <-]. exists raw. split; [done|].
  pose proof (analyze_patterns_trace _ _ _ _ Hraw) as Htrace.
  assert (NoDup raw.*1) as Hnd
    by (rewrite Htrace; apply update_keys_NoDup, NoDup_nil_2).
  split_and!.
  - rewrite most_common_length, Eraw. simpl. lia.
  - apply most_common_length.
  - by apply most_common_NoDup.
  - apply most_common_Sorted.
  - intros k n Hin%most_common_elem. split; [done|].
    split; [by apply counter_get_elem|].
    rewrite Htrace in Hin. by apply stream_entry in Hin as (_ & ? & _).
  - intros e e'. apply most_common_dominates.
Qed.

Lemma shown_ranks_witness :
  ∃ ranks panels, run_split_analysis history5 current5 SADaily
                  = Shown ranks panels ∧
    1 ≤ length ranks ∧ NoDup ranks.*1 ∧ Sorted by_count_desc ranks.
Proof.
  destruct (run_split_analysis history5 current5 SADaily)
    as [| |ranks panels] eqn:Hrun; [by vm_compute in Hrun..|].
  exists ranks, panels. split; [done|].
  destruct (shown_ranks history5 current5 SADaily ranks panels Hrun)
    as (raw & _ & Hlen & _ & Hnd & Hs & _).
  by split_and!.
Defined.

Lemma occ_NoDup {K} `{EqDecision K} (k : K) l : NoDup l → k ∈ l → occ k l = 1.
Proof.
  induction 1 as [|x l Hx Hnd IH]; [by intros ?%elem_of_nil|].
  rewrite occ_cons, elem_of_cons. intros [->|Hin].
  - rewrite decide_True by done. apply occ_zero in Hx. lia.
  - rewrite decide_False by (intros ->; done). by rewrite IH.
Qed.

Lemma show_targets_fst (m : gmap Z (Counter split_key)) ts panels :
  mapM (show_target m) ts = Some panels →
  panels.*1 = ts ∧
  ∀ t p, (t, p) ∈ panels → t ∈ ts ∧ show_target m t = Some (t, p).
Proof.
  intros Hm%mapM_Some_1. induction Hm as [|t [t' p] ts ps Ht _ IH].
  - split; [done|]. by intros t p ?%elem_of_nil.
  - assert (t' = t) as ->.
    { unfold show_target in Ht. destruct (splits_of m t); simpl in Ht; [|done].
      by injection Ht as <- _. }
    destruct IH as [IH1 IH2]. split; [rewrite fmap_cons; simpl; by f_equal|].
    intros t0 p0 [[= -> ->]|Hin]%elem_of_cons.
    + split; [by left|done].
    + destruct (IH2 _ _ Hin). split; [by right|done].
Qed.

(** X15. When the main flow shows results there is one panel per ranked
    target, in rank order. A panel of best splits holds between 1 and 3
    distinct entries, the counts never increasing; each entry has passed its
    test for the panel's target, as the code computes it on 64-bit integers,
    and its count is the number of times the pair occurs among the pairs of
    the successors of the matching rows. The line "no strong split pattern"
    appears exactly when no such pair passes a test for the target. On a
    history of small numbers the tests are the exact equalities: the pairs
    of a panel sum or differ to its target, and the line appears exactly
    when no pair does. *)
Theorem shown_panels df cur gt ranks panels :
  run_split_analysis df cur gt = Shown ranks panels →
  panels.*1 = ranks.*1 ∧
  ∀ t p, (t, p) ∈ panels →
    match p with
    | BestSplits splits =>
        1 ≤ length splits ≤ 3 ∧ NoDup splits.*1 ∧
        Sorted by_count_desc splits ∧
        ∀ a b rel n, ((a, b, rel), n) ∈ splits →
          relation_holds rel a b t ∧ n = pair_hits df cur gt a b ∧ 1 ≤ n ∧
          (small_cells df → relation_exact rel a b t)
    | NoStrongPattern =>
        (∀ a b rel, relation_holds rel a b t → pair_hits df cur gt a b = 0) ∧
        (small_cells df →
         ∀ a b rel, relation_exact rel a b t → pair_hits df cur gt a b = 0)
    end.
Proof.
  unfold run_split_analysis.
  destruct (analyze_patterns df cur gt) as [raw|] eqn:Hraw; [|done].
  destruct raw as [|e0 raw0] eqn:Eraw; [done|]. rewrite <- Eraw in *. cbv zeta.
  destruct (analyze_splits df cur (top_targets_of raw) gt) as [m|] eqn:Hm;
    [|done].
  destruct (mapM (show_target m) (top_targets_of raw)) as [ps|] eqn:Hps;
    [|done].
  intros [= <- <-]. destruct (show_targets_fst _ _ _ Hps) as [Hfst Hshow].
  split; [done|]. intros t p Hin. destruct (Hshow t p Hin) as [Ht Hp].
  assert (occ t (top_targets_of raw) = 1) as Hocc.
  { apply occ_NoDup; [|done]. apply most_common_NoDup.
    rewrite (analyze_patterns_trace _ _ _ _ Hraw).
    apply update_keys_NoDup, NoDup_nil_2. }
  pose proof (analyze_splits_trace _ _ _ _ _ Hm t) as Hc.
  rewrite decide_True in Hc by done.
  remember (keys_for t (split_events df cur (top_targets_of raw) gt))
    as es eqn:Hes.
  assert (∀ a b rel, occ (a, b, rel) es
            = pair_hits df cur gt a b
              * (if decide (relation_holds rel a b t) then 1 else 0)) as Hcount.
  { intros a b rel. rewrite Hes, occ_keys_for, occ_split_events, Hocc.
    lia. }
  clear Hes.
  unfold show_target, splits_of in Hp. rewrite Hc in Hp. simpl in Hp.
  destruct (most_common 3 (update [] es)) as [|s0 ss] eqn:Hmc.
  - injection Hp as <-.
    apply most_common_nil_inv in Hmc; [|lia].
    apply (proj1 (update_empty_iff es)) in Hmc. subst es.
    assert (∀ a b rel, relation_holds rel a b t →
              pair_hits df cur gt a b = 0) as Hnone.
    { intros a b rel Hrel. pose proof (Hcount a b rel) as Hab.
      rewrite occ_nil in Hab. rewrite decide_True in Hab by done. lia. }
    split; [exact Hnone|]. intros Hsmall a b rel Hrel.
    destruct (decide (0 < pair_hits df cur gt a b)) as [Hpos|]; [|lia].
    destruct (pair_hits_small _ _ _ _ _ Hsmall Hpos) as [Ha Hb].
    apply (Hnone a b rel). by apply relation_holds_small.
  - injection Hp as <-. rewrite <- Hmc. split_and!.
    + rewrite Hmc. simpl. lia.
    + rewrite most_common_length. lia.
    + apply most_common_NoDup, update_keys_NoDup, NoDup_nil_2.
    + apply most_common_Sorted.
    + intros a b rel n Hentry%most_common_elem.
      apply stream_entry in Hentry as (-> & Hpos & _).
      rewrite Hcount in *.
      destruct (decide (relation_holds rel a b t)) as [Hrel|]; [|lia].
      split_and!; [done|lia|lia|]. intros Hsmall.
      destruct (pair_hits_small df cur gt a b Hsmall) as [Ha Hb]; [lia|].
      by apply (relation_holds_small rel a b t Ha Hb).
Qed.

Lemma shown_panels_witness :
  small_cells history_fib ∧
  ∃ ranks panels, run_split_analysis history_fib current_fib SADaily
                  = Shown ranks panels ∧ panels.*1 = ranks.*1 ∧
    (5%Z, BestSplits [((2%Z, 3%Z, Sum), 1); ((3%Z, 8%Z, Diff), 1);
                      ((8%Z, 13%Z, Diff), 1)]) ∈ panels ∧
    ∀ a b rel n,
      ((a, b, rel), n) ∈ [((2%Z, 3%Z, Sum), 1); ((3%Z, 8%Z, Diff), 1);
                          ((8%Z, 13%Z, Diff), 1)] →
      relation_holds rel a b 5 ∧
      n = pair_hits history_fib current_fib SADaily a b ∧ 1 ≤ n ∧
      relation_exact rel a b 5.
Proof.
  assert (small_cells history_fib) as Hsmall by compute_done.
  split; [exact Hsmall|].
  destruct (run_split_analysis history_fib current_fib SADaily)
    as [| |ranks panels] eqn:Hrun; [by vm_compute in Hrun..|].
  exists ranks, panels. split; [reflexivity|].
  destruct (shown_panels history_fib current_fib SADaily ranks panels Hrun)
    as [Hfst Hpanels].
  split; [exact Hfst|].
  assert ((5%Z, BestSplits [((2%Z, 3%Z, Sum), 1); ((3%Z, 8%Z, Diff), 1);
                            ((8%Z, 13%Z, Diff), 1)]) ∈ panels) as Hin.
  { vm_compute in Hrun. injection Hrun as _ <-. set_solver. }
  split; [exact Hin|]. intros a b rel n Hentry.
  destruct (Hpanels _ _ Hin) as (_ & _ & _ & Hentries).
  destruct (Hentries a b rel n Hentry) as (Hrel & Hn & Hpos & Hexact).
  split_and!; [exact Hrel|exact Hn|exact Hpos|exact (Hexact Hsmall)].
Defined.

(** ** Cleaning the columns *)

Lemma get_loc_lookup name cols i :
  get_loc name cols = Some i → cols !! i = Some name.
Proof.
  revert i. induction cols as [|c cs IH]; intros i; simpl; [done|].
  destruct (decide (c = name)) as [->|Hne]; [by intros [= <-]|].
  destruct (get_loc name cs) as [j|]; simpl; [|done].
  intros [= <-]. by apply IH.
Qed.

Lemma get_loc_NoDup name cols i :
  NoDup cols → cols !! i = Some name → get_loc name cols = Some i.
Proof.
  intros Hnd Hi. destruct (get_loc_Some name cols) as (j & Hj & _).
  { by eapply list_elem_of_lookup_2. }
  rewrite Hj. f_equal. apply get_loc_lookup in Hj.
  by eapply NoDup_lookup.
Qed.

Lemma get_loc_snoc name cols c :
  get_loc name (cols ++ [c]) =
  match get_loc name cols with
  | Some i => Some i
  | None => if decide (c = name) then Some (length cols) else None
  end.
Proof.
  induction cols as [|c0 cs IH]; simpl.
  - by destruct (decide (c = name)).
  - destruct (decide (c0 = name)); [done|]. rewrite IH.
    destruct (get_loc name cs); simpl; [done|].
    by destruct (decide (c = name)).
Qed.

Lemma N_rename_map_lookup numeric_cols n :
  n ≤ length numeric_cols → NoDup (take n numeric_cols) →
  ∃ m, N_rename_map numeric_cols n = Some m ∧
    ∀ l, m !! l = (λ i, N_col (i + 1)) <$> get_loc l (take n numeric_cols).
Proof.
  unfold N_rename_map. rewrite range_0.
  induction n as [|n IH]; intros Hlen Hnd.
  - exists ∅. split; [done|]. intros l. by rewrite lookup_empty.
  - destruct (lookup_lt_is_Some_2 numeric_cols n) as [x Hx]; [lia|].
    rewrite (take_S_r _ _ _ Hx) in Hnd |- *.
    apply NoDup_app in Hnd as (Hnd & Hfresh & _).
    destruct IH as (m & Hm & Hspec); [lia|done|].
    rewrite seq_S, for_each_app, Hm. simpl. rewrite Hx. simpl.
    eexists. split; [done|]. intros l. rewrite get_loc_snoc.
    destruct (decide (x = l)) as [->|Hne].
    + rewrite lookup_insert_eq, get_loc_None; [|].
      * simpl. by rewrite length_take_le by lia.
      * intros Hin. apply (Hfresh l Hin). by left.
    + rewrite lookup_insert_ne, Hspec by done.
      by destruct (get_loc l (take n numeric_cols)).
Qed.

Lemma filter_fmap {A B} (f : A → B) (P : B → Prop) `{!∀ x, Decision (P x)}
    (l : list A) :
  filter P (f <$> l) = f <$> filter (λ x, P (f x)) l.
Proof.
  induction l as [|x l IH]; [done|]. rewrite fmap_cons, !filter_cons, IH.
  by destruct (decide (P (f x))).
Qed.

Lemma filter_iff_elem {A} (P Q : A → Prop) `{!∀ x, Decision (P x)}
    `{!∀ x, Decision (Q x)} (l : list A) :
  (∀ x, x ∈ l → P x ↔ Q x) → filter P l = filter Q l.
Proof.
  induction l as [|x l IH]; intros Hpq; [done|]. rewrite !filter_cons.
  rewrite IH by (intros y Hy; apply Hpq; by right).
  destruct (decide (P x)) as [Hp|Hp], (decide (Q x)) as [Hq|Hq]; try done.
  - destruct Hq. by apply (Hpq x); [left|].
  - destruct Hp. by apply (Hpq x); [left|].
Qed.

Lemma filter_none {A} (P : A → Prop) `{!∀ x, Decision (P x)} (l : list A) :
  (∀ x, x ∈ l → ¬ P x) → filter P l = [].
Proof.
  induction l as [|x l IH]; intros Hno; [done|].
  rewrite filter_cons, decide_False by (apply Hno; by left).
  apply IH. intros y Hy. apply Hno. by right.
Qed.

Lemma filter_label_singleton {C} (cols : list (Column C)) c :
  NoDup (label <$> cols) → c ∈ cols →
  filter (λ x, label x = label c) cols = [c].
Proof.
  induction cols as [|c0 cs IH]; intros Hnd Hin; [by apply elem_of_nil in Hin|].
  rewrite fmap_cons in Hnd. apply NoDup_cons in Hnd as [Hc0 Hnd].
  rewrite filter_cons. apply elem_of_cons in Hin as [->|Hin].
  - rewrite decide_True by done. f_equal. apply filter_none.
    intros x Hx Heq. apply Hc0. rewrite <- Heq.
    by apply list_elem_of_fmap_2.
  - rewrite decide_False; [by apply IH|]. intros Heq. apply Hc0.
    rewrite Heq. by apply list_elem_of_fmap_2.
Qed.

Lemma NoDup_fmap_sublist {A B} (f : A → B) (l1 l2 : list A) :
  l1 `sublist_of` l2 → NoDup (f <$> l2) → NoDup (f <$> l1).
Proof.
  induction 1 as [|x l1 l2 Hsub IH|x l1 l2 Hsub IH]; [done| |].
  - rewrite !fmap_cons, !NoDup_cons. intros [Hx Hnd]. split; [|by apply IH].
    intros (y & Hy & Hin)%list_elem_of_fmap. apply Hx. rewrite Hy.
    apply list_elem_of_fmap_2. by eapply elem_of_sublist.
  - rewrite fmap_cons, NoDup_cons. intros [_ Hnd]. by apply IH.
Qed.

Lemma concat_singletons {A} (l : list A) : concat ((λ x, [x]) <$> l) = l.
Proof. induction l as [|x l IH]; simpl; [done|]. by f_equal. Qed.

Lemma kept_sublist {C} (df : RawFrame C) gt :
  kept df gt `sublist_of` raw_columns df.
Proof.
  unfold kept. etrans; [apply sublist_take|apply sublist_filter].
Qed.

Lemma kept_numeric {C} (df : RawFrame C) gt c :
  c ∈ kept df gt → numeric c = true.
Proof.
  unfold kept. intros Hin%subseteq_take.
  by apply list_elem_of_filter in Hin as [? _].
Qed.

Lemma select_renamed {C} (df : RawFrame C) (m : gmap string string)
    (T : list string) (K : list (Column C)) :
  NoDup (label <$> raw_columns df) → NoDup T → length T = length K →
  K `sublist_of` raw_columns df →
  (∀ l, l ∈ label <$> raw_columns df → l ∈ T → l ∈ label <$> K) →
  (∀ l, m !! l = get_loc l (label <$> K) ≫= (T !!.)) →
  select (rename df m) T
  = Some {| raw_columns := zip_with relabel T K; nrows := nrows df |}.
Proof.
  intros Hnd HT Hlen Hsub Hclash Hm.
  assert (NoDup (label <$> K)) as HndK by by eapply NoDup_fmap_sublist.
  assert (∀ i t k, T !! i = Some t → K !! i = Some k →
            m !! label k = Some t) as Hkept.
  { intros i t k Ht Hk. rewrite Hm.
    rewrite (get_loc_NoDup (label k) (label <$> K) i HndK); [done|].
    by rewrite list_lookup_fmap, Hk. }
  unfold select.
  assert (mapM (λ name,
            match filter (λ c, label c = name) (raw_columns (rename df m)) with
            | [] => None
            | cs => Some cs
            end) T = Some ((λ c, [c]) <$> zip_with relabel T K)) as ->.
  { apply mapM_Some_2, Forall2_same_length_lookup_2.
    { by rewrite length_fmap, length_zip_with_l_eq. }
    intros i t y Ht Hy. rewrite list_lookup_fmap, lookup_zip_with, Ht in Hy.
    simpl in Hy. destruct (K !! i) as [k|] eqn:Hk; simpl in Hy; [|done].
    injection Hy as <-. simpl. rewrite filter_fmap.
    rewrite (filter_iff_elem _ (λ c, label c = label k)).
    - rewrite filter_label_singleton; [|done|].
      + simpl. by rewrite (Hkept i t k).
      + eapply elem_of_sublist; [|done]. by eapply list_elem_of_lookup_2.
    - intros c Hc. simpl. split.
      + intros Hren. rewrite Hm in Hren.
        destruct (get_loc (label c) (label <$> K)) as [j|] eqn:Hj; simpl in Hren.
        * pose proof (get_loc_lookup _ _ _ Hj) as HKj.
          destruct (T !! j) as [tj|] eqn:Htj; simpl in Hren.
          -- subst tj. assert (j = i) as -> by exact (NoDup_lookup T j i t HT Htj Ht).
             rewrite list_lookup_fmap, Hk in HKj. by injection HKj.
          -- apply lookup_lt_Some in HKj. apply lookup_ge_None in Htj.
             rewrite length_fmap in HKj. lia.
        * exfalso. assert (label c ∈ label <$> K) as Hin.
          { apply Hclash; [by apply list_elem_of_fmap_2|].
            rewrite Hren. by eapply list_elem_of_lookup_2. }
          destruct (get_loc_Some _ _ Hin) as (j & Hj' & _). congruence.
      + intros Heq. rewrite Heq. by rewrite (Hkept i t k). }
  simpl. by rewrite concat_singletons.
Qed.

Lemma clean_labels_NoDup gt : NoDup (clean_labels gt).
Proof. destruct gt; compute_done. Qed.

Lemma clean_labels_N_col gt i :
  i < arity gt → clean_labels gt !! i = Some (N_col (i + 1)).
Proof.
  destruct gt; simpl; intros Hi;
    repeat (destruct i as [|i]; [by vm_compute|]); lia.
Qed.

(** What [clean_data] returns when the variant's numeric columns are there,
    the labels are distinct and no other column carries a cleaned label. *)
Lemma clean_data_kept {C} (df : RawFrame C) gt :
  NoDup (label <$> raw_columns df) →
  length (clean_labels gt) ≤ length (select_dtypes_number df) →
  (∀ l, l ∈ label <$> raw_columns df → l ∈ clean_labels gt →
        l ∈ label <$> kept df gt) →
  clean_data df gt
  = Some {| raw_columns := zip_with relabel (clean_labels gt) (kept df gt);
            nrows := nrows df |}.
Proof.
  intros Hnd Hlen Hclash.
  pose proof (kept_sublist df gt) as Hsub.
  assert (NoDup (label <$> kept df gt)) as HndK by by eapply NoDup_fmap_sublist.
  assert (label <$> kept df gt
          = take (length (clean_labels gt)) (select_dtypes_number df)) as HK.
  { unfold kept, select_dtypes_number. by rewrite fmap_take. }
  assert (length (clean_labels gt) = length (kept df gt)) as HlenK.
  { rewrite <- (length_fmap label), HK, length_take_le; done. }
  cut (∃ m, (∀ l, m !! l = get_loc l (label <$> kept df gt)
                          ≫= (clean_labels gt !!.)) ∧
            clean_data df gt = select (rename df m) (clean_labels gt)).
  { intros (m & Hm & ->).
    apply select_renamed; auto using clean_labels_NoDup. }
  rewrite HK in HndK |- *. unfold clean_data. destruct gt.
  - change (length (clean_labels UK49)) with 7 in *.
    rewrite decide_True by done.
    destruct (lookup_lt_is_Some_2 (select_dtypes_number df) 6) as [x Hx]; [lia|].
    rewrite (take_S_r _ _ _ Hx) in HndK |- *.
    apply NoDup_app in HndK as (Hnd6 & Hfresh & _).
    destruct (N_rename_map_lookup (select_dtypes_number df) 6)
      as (m & -> & Hm); [lia|done|].
    simpl. rewrite Hx. simpl. eexists. split; [|done].
    intros l. rewrite get_loc_snoc.
    destruct (decide (x = l)) as [->|Hne].
    + rewrite lookup_insert_eq, get_loc_None.
      * by rewrite length_take_le by lia.
      * intros Hin. apply (Hfresh l Hin). by left.
    + rewrite lookup_insert_ne, Hm by done.
      destruct (get_loc l (take 6 (select_dtypes_number df))) as [i|] eqn:Hi;
        [|done].
      simpl. symmetry. apply (clean_labels_N_col UK49).
      apply get_loc_lookup, lookup_lt_Some in Hi.
      rewrite length_take_le in Hi by lia. done.
  - change (length (clean_labels SADaily)) with 5 in *.
    rewrite decide_True by done.
    destruct (N_rename_map_lookup (select_dtypes_number df) 5)
      as (m & -> & Hm); [lia|done|].
    simpl. exists m. split; [|done]. intros l. rewrite Hm.
    destruct (get_loc l (take 5 (select_dtypes_number df))) as [i|] eqn:Hi;
      [|done].
    simpl. symmetry. apply (clean_labels_N_col SADaily).
    apply get_loc_lookup, lookup_lt_Some in Hi.
    rewrite length_take_le in Hi by lia. done.
Qed.

Lemma relabel_labels {C} (T : list string) (K : list (Column C)) :
  length T = length K →
  label <$> zip_with relabel T K = T ∧
  cells <$> zip_with relabel T K = cells <$> K ∧
  numeric <$> zip_with relabel T K = numeric <$> K.
Proof.
  revert K. induction T as [|t T IH]; intros [|k K] Hlen; try done.
  destruct (IH K) as (H1 & H2 & H3); [simpl in Hlen; lia|].
  cbn [zip_with]. rewrite !fmap_cons. simpl. by rewrite H1, H2, H3.
Qed.

Lemma relabel_same {C} (K : list (Column C)) :
  zip_with relabel (label <$> K) K = K.
Proof.
  induction K as [|[l n cs] K IH]; [done|]. rewrite fmap_cons. cbn [zip_with].
  by rewrite IH.
Qed.

Lemma filter_all {A} (P : A → Prop) `{!∀ x, Decision (P x)} (l : list A) :
  Forall P l → filter P l = l.
Proof.
  induction 1 as [|x l Hx _ IH]; [done|].
  by rewrite filter_cons, decide_True, IH.
Qed.

(** X16. When the uploaded frame has the numeric columns the variant needs
    (5, or 7), its labels are distinct and no column outside the first 5 (7)
    numeric ones already carries one of the cleaned labels, [clean_data]
    returns exactly those first numeric columns, in their order and with
    their cells, relabelled N1 to N5 (N1 to N6 and Bonus); every other
    column is dropped and the number of rows is kept. *)
Theorem clean_data_columns {C} (df : RawFrame C) gt :
  NoDup (label <$> raw_columns df) →
  length (clean_labels gt) ≤ length (select_dtypes_number df) →
  (∀ l, l ∈ label <$> raw_columns df → l ∈ clean_labels gt →
        l ∈ label <$> kept df gt) →
  ∃ df', clean_data df gt = Some df' ∧
    label <$> raw_columns df' = clean_labels gt ∧
    cells <$> raw_columns df' = cells <$> kept df gt ∧
    Forall (λ c, numeric c = true) (raw_columns df') ∧
    nrows df' = nrows df.
Proof.
  intros Hnd Hlen Hclash. eexists. split; [by apply clean_data_kept|].
  assert (length (clean_labels gt) = length (kept df gt)) as HlenK.
  { unfold kept. rewrite length_take_le; [done|].
    unfold select_dtypes_number in Hlen. by rewrite length_fmap in Hlen. }
  destruct (relabel_labels (clean_labels gt) (kept df gt) HlenK)
    as (Hl & Hc & Hn).
  simpl. split_and!; try done.
  apply Forall_forall. intros c (i & Hi)%list_elem_of_lookup.
  apply lookup_zip_with_Some in Hi as (t & k & -> & _ & Hk). simpl.
  eapply kept_numeric. by eapply list_elem_of_lookup_2.
Qed.

Lemma clean_data_columns_witness :
  NoDup (label <$> raw_columns upload49) ∧
  length (clean_labels UK49) ≤ length (select_dtypes_number upload49) ∧
  (∀ l, l ∈ label <$> raw_columns upload49 → l ∈ clean_labels UK49 →
        l ∈ label <$> kept upload49 UK49) ∧
  ∃ df', clean_data upload49 UK49 = Some df' ∧
    label <$> raw_columns df' = clean_labels UK49 ∧
    cells <$> raw_columns df' = cells <$> kept upload49 UK49.
Proof.
  assert (NoDup (label <$> raw_columns upload49)) as H1 by compute_done.
  assert (length (clean_labels UK49) ≤ length (select_dtypes_number upload49))
    as H2 by (vm_compute; lia).
  assert (∀ l, l ∈ label <$> raw_columns upload49 → l ∈ clean_labels UK49 →
               l ∈ label <$> kept upload49 UK49) as H3.
  { intros l Hl Ht. exfalso. revert Hl Ht.
    change (label <$> raw_columns upload49)
      with ["Date"; "A"; "B"; "C"; "D"; "E"; "F"; "B1"; "Jackpot"].
    unfold clean_labels. rewrite !elem_of_cons, !elem_of_nil.
    intros Hl Ht. repeat destruct Hl as [->|Hl]; try done;
      repeat destruct Ht as [Ht|Ht]; done. }
  split_and!; [done..|].
  destruct (clean_data_columns upload49 UK49 H1 H2 H3)
    as (df' & Hd & Hl & Hc & _).
  exists df'. by split_and!.
Defined.

(** X17. A frame whose columns are exactly the variant's cleaned labels, in
    order and all numeric, is returned as it is: cleaning a cleaned frame
    changes nothing. *)
Theorem clean_data_fixed {C} (df : RawFrame C) gt :
  label <$> raw_columns df = clean_labels gt →
  Forall (λ c, numeric c = true) (raw_columns df) →
  clean_data df gt = Some df.
Proof.
  intros Hl Hn.
  assert (kept df gt = raw_columns df) as HK.
  { unfold kept. rewrite filter_all by done.
    rewrite <- Hl, length_fmap. apply firstn_all. }
  rewrite clean_data_kept.
  - rewrite HK, <- Hl, relabel_same. by destruct df.
  - rewrite Hl. apply clean_labels_NoDup.
  - unfold select_dtypes_number. rewrite filter_all by done. by rewrite Hl.
  - intros l Hin _. by rewrite HK.
Qed.

Lemma clean_data_fixed_witness :
  ∃ df', clean_data upload49 UK49 = Some df' ∧
    label <$> raw_columns df' = clean_labels UK49 ∧
    Forall (λ c, numeric c = true) (raw_columns df') ∧
    clean_data df' UK49 = Some df'.
Proof.
  destruct (clean_data upload49 UK49) as [df'|] eqn:Hd; [|by vm_compute in Hd].
  assert (label <$> raw_columns df' = clean_labels UK49) as Hl.
  { vm_compute in Hd. injection Hd as <-. reflexivity. }
  assert (Forall (λ c, numeric c = true) (raw_columns df')) as Hn.
  { vm_compute in Hd. injection Hd as <-. by repeat constructor. }
  exists df'. split_and!; [done..|].
  by apply (clean_data_fixed df' UK49).
Defined.

Lemma N_cols_clean gt : Forall (λ c, occ c (clean_labels gt) = 1) (N_cols gt).
Proof. destruct gt; compute_done. Qed.

Lemma Bonus_clean gt : occ "Bonus" (clean_labels gt) ≤ 1.
Proof. destruct gt; compute_done. Qed.

Lemma frame_of_readable (df : RawFrame Z) gt :
  label <$> raw_columns df = clean_labels gt →
  Forall (λ c, length (cells c) = nrows df) (raw_columns df) →
  ∃ f, frame_of df = Some f ∧ wf_frame f gt ∧ len f = nrows df ∧
    columns f = clean_labels gt ∧
    ∀ i j row k, values f !! i = Some row → raw_columns df !! j = Some k →
      row !! j = cells k !! i.
Proof.
  intros Hl Hcells. unfold frame_of.
  destruct (mapM (λ i, mapM (λ c, cells c !! i) (raw_columns df))
              (seq 0 (nrows df))) as [rows|] eqn:Hrows.
  - apply mapM_Some_1 in Hrows. simpl. eexists. split; [done|].
    assert (∀ i row, rows !! i = Some row →
              Forall2 (λ c x, cells c !! i = Some x) (raw_columns df) row)
      as Hrow.
    { intros i row Hi.
      destruct (Forall2_lookup_r _ _ _ _ _ Hrows Hi) as (i' & Hi' & Hm).
      apply lookup_seq in Hi' as [-> _]. by apply mapM_Some_1 in Hm. }
    split_and!.
    + split_and!; simpl.
      * rewrite Hl. apply N_cols_clean.
      * intros _. rewrite Hl. apply Bonus_clean.
      * apply Forall_forall. intros row (i & Hi)%list_elem_of_lookup.
        rewrite length_fmap. symmetry. by eapply Forall2_length, Hrow.
    + unfold len. simpl. apply Forall2_length in Hrows.
      by rewrite length_seq in Hrows.
    + done.
    + simpl. intros i j row k Hi Hj.
      destruct (Forall2_lookup_l _ _ _ _ _ (Hrow i row Hi) Hj)
        as (x & -> & ->). done.
  - exfalso. apply mapM_None_1, Exists_exists in Hrows as (i & Hi & Hnone).
    apply elem_of_seq in Hi. apply mapM_None_1, Exists_exists in Hnone
      as (c & Hc & Hnone).
    apply lookup_ge_None in Hnone.
    pose proof (proj1 (Forall_forall _ _) Hcells c Hc) as Hlen.
    simpl in Hlen. lia.
Qed.

(** X18. Cleaning hands the analysis a frame it can read. For an upload
    with integer cells whose columns all have one cell per row, with the
    numeric columns the variant needs, distinct labels and no cleaned label
    on a column outside the first 5 (7) numeric ones, the cleaned frame read
    row by row has one draw per uploaded row and the variant's labels as
    columns, the bonus column included in variant B; the cell of row [i] in
    column [j] is cell [i] of the [j]-th numeric column of the upload; and
    both scans return on it for every current draw and target list. *)
Theorem cleaned_frame_is_readable (df : RawFrame Z) gt :
  NoDup (label <$> raw_columns df) →
  length (clean_labels gt) ≤ length (select_dtypes_number df) →
  (∀ l, l ∈ label <$> raw_columns df → l ∈ clean_labels gt →
        l ∈ label <$> kept df gt) →
  Forall (λ c, length (cells c) = nrows df) (raw_columns df) →
  ∃ df' f, clean_data df gt = Some df' ∧ frame_of df' = Some f ∧
    wf_frame f gt ∧ len f = nrows df ∧ columns f = clean_labels gt ∧
    (∀ i j row k, values f !! i = Some row → kept df gt !! j = Some k →
       row !! j = cells k !! i) ∧
    ∀ cur top_targets,
      is_Some (analyze_patterns f cur gt) ∧
      is_Some (analyze_splits f cur top_targets gt).
Proof.
  intros Hnd Hlen Hclash Hcells.
  pose proof (clean_data_kept df gt Hnd Hlen Hclash) as Hclean.
  assert (length (clean_labels gt) = length (kept df gt)) as HlenK.
  { unfold kept. rewrite length_take_le; [done|].
    unfold select_dtypes_number in Hlen. by rewrite length_fmap in Hlen. }
  destruct (relabel_labels (clean_labels gt) (kept df gt) HlenK)
    as (Hl & Hc & _).
  destruct (frame_of_readable
              {| raw_columns := zip_with relabel (clean_labels gt) (kept df gt);
                 nrows := nrows df |} gt) as (f & Hf & Hwf & Hrows & Hcols & Hcell).
  { done. }
  { simpl. apply Forall_forall. intros c (i & Hi)%list_elem_of_lookup.
    apply lookup_zip_with_Some in Hi as (t & k & -> & _ & Hk). simpl.
    apply (proj1 (Forall_forall _ _) Hcells).
    eapply elem_of_sublist; [|apply kept_sublist].
    by eapply list_elem_of_lookup_2. }
  eexists _, f. split_and!; try done.
  - intros i j row k Hi Hk.
    destruct (lookup_lt_is_Some_2 (clean_labels gt) j) as [t Ht].
    { rewrite HlenK. by eapply lookup_lt_Some. }
    rewrite (Hcell i j row (relabel t k) Hi); [done|]. simpl.
    rewrite lookup_zip_with, Ht. simpl. by rewrite Hk.
  - intros cur top_targets. split.
    + by apply analyze_patterns_total.
    + by apply analyze_splits_total.
Qed.

Lemma cleaned_frame_is_readable_witness :
  ∃ df' f, clean_data upload49 UK49 = Some df' ∧ frame_of df' = Some f ∧
    wf_frame f UK49 ∧ len f = nrows upload49 ∧
    is_Some (analyze_patterns f current7 UK49).
Proof.
  assert (NoDup (label <$> raw_columns upload49)) as H1 by compute_done.
  assert (length (clean_labels UK49) ≤ length (select_dtypes_number upload49))
    as H2 by (vm_compute; lia).
  assert (∀ l, l ∈ label <$> raw_columns upload49 → l ∈ clean_labels UK49 →
               l ∈ label <$> kept upload49 UK49) as H3.
  { intros l Hl Ht. exfalso. revert Hl Ht.
    change (label <$> raw_columns upload49)
      with ["Date"; "A"; "B"; "C"; "D"; "E"; "F"; "B1"; "Jackpot"].
    unfold clean_labels. rewrite !elem_of_cons, !elem_of_nil.
    intros Hl Ht. repeat destruct Hl as [->|Hl]; try done;
      repeat destruct Ht as [Ht|Ht]; done. }
  assert (Forall (λ c, length (cells c) = nrows upload49)
            (raw_columns upload49)) as H4 by compute_done.
  destruct (cleaned_frame_is_readable upload49 UK49 H1 H2 H3 H4)
    as (df' & f & Hd & Hf & Hwf & Hlen & _ & _ & Hruns).
  exists df', f. split_and!; try done. apply (Hruns current7 []).
Defined.

(** ** Longer histories, split scan *)

Lemma extend_splits_body df later cur top_targets gt m i :
  i + 1 < len df →
  splits_body (extend df later) cur top_targets gt m i
  = splits_body df cur top_targets gt m i.
Proof.
  intros Hi. unfold splits_body, is_match.
  rewrite extend_next by done. by rewrite extend_iloc by lia.
Qed.

(** X19. Appending draws to a history leaves the earlier part of the split
    scan untouched: if [analyze_splits] returns on the longer history it
    returns on the shorter one, and for every target the entries of the
    shorter result are, in the same order, the first entries of the longer
    result, none with a lower count. *)
Theorem split_history_extension df later cur top_targets gt m' :
  analyze_splits (extend df later) cur top_targets gt = Some m' →
  ∃ m, analyze_splits df cur top_targets gt = Some m ∧
    ∀ t (c : Counter split_key), m !! t = Some c →
      ∃ c', m' !! t = Some c' ∧ c.*1 `prefix_of` c'.*1 ∧
        ∀ key, counter_get c key ≤ counter_get c' key.
Proof.
  unfold analyze_splits. rewrite extend_scan_range, for_each_app.
  intros Hrun. apply bind_Some in Hrun as (m & Hm & Hrest).
  exists m. split.
  - rewrite <- Hm. apply for_each_ext. intros m0 i Hi%elem_of_scan_range.
    symmetry. by apply extend_splits_body.
  - assert (applies m
              (concat (row_events (extend df later) cur top_targets gt
                       <$> seq (len df - 1)
                             (len (extend df later) - 1 - (len df - 1)))) m')
      as Happ.
    { revert Hrest.
      apply (for_each_trace _
               (row_events (extend df later) cur top_targets gt) applies);
        [apply applies_nil|apply applies_app|].
      intros m1 i m2 _. apply splits_body_applies. }
    intros t c Hc. rewrite (Happ t), Hc. simpl. eexists. split; [done|].
    split; [apply update_keys_prefix|].
    intros key. rewrite counter_get_update. lia.
Qed.

Lemma split_history_extension_witness :
  ∃ m', analyze_splits (extend history5 [[4; 5; 6; 7; 8]%Z]) current5
          [1; 9]%Z SADaily = Some m' ∧
    ∃ m, analyze_splits history5 current5 [1; 9]%Z SADaily = Some m ∧
      ∀ t (c : Counter split_key), m !! t = Some c →
        ∃ c', m' !! t = Some c' ∧ c.*1 `prefix_of` c'.*1 ∧
          ∀ key, counter_get c key ≤ counter_get c' key.
Proof.
  destruct (analyze_splits (extend history5 [[4; 5; 6; 7; 8]%Z]) current5
              [1; 9]%Z SADaily) as [m'|] eqn:Hm'; [|by vm_compute in Hm'].
  exists m'. split; [done|].
  by apply (split_history_extension history5 [[4; 5; 6; 7; 8]%Z] current5
              [1; 9]%Z SADaily).
Defined.

(** ** The order of the numbers within a stored draw *)

Lemma sorted_perm l l' : l ≡ₚ l' → sorted l = sorted l'.
Proof.
  intros Hp. apply (StronglySorted_unique Z.le); try apply sorted_ascending.
  unfold sorted. by rewrite !merge_sort_Permutation.
Qed.

Lemma same_draw_row_numbers gt cols r r' :
  same_draw gt cols r r' →
  get_row_numbers {| index := cols; vals := r |} gt
  = get_row_numbers {| index := cols; vals := r' |} gt.
Proof.
  intros [Hb Hp]. unfold get_row_numbers. simpl index. rewrite Hb.
  unfold primary_of in Hp. destruct gt; unfold arity in Hp.
  - destruct (mapM _ (range 1 7)) as [p|], (mapM _ (range 1 7)) as [p'|];
      try done.
    cbn [mbind option_bind]. by rewrite (list_to_set_perm_L p p' Hp).
  - destruct (mapM _ (range 1 6)) as [p|], (mapM _ (range 1 6)) as [p'|];
      try done.
    cbn [mbind option_bind]. by rewrite (list_to_set_perm_L p p' Hp).
Qed.

Lemma same_draw_sorted gt cols r r' :
  same_draw gt cols r r' →
  sorted <$> primary_of {| index := cols; vals := r |} gt
  = sorted <$> primary_of {| index := cols; vals := r' |} gt.
Proof.
  intros [_ Hp].
  destruct (primary_of _ gt) as [p|], (primary_of _ gt) as [p'|]; try done.
  simpl. f_equal. by apply sorted_perm.
Qed.

Lemma same_draws_next df df' gt i :
  columns df = columns df' →
  Forall2 (same_draw gt (columns df)) (values df) (values df') →
  get_next_numbers_list df i gt = get_next_numbers_list df' i gt.
Proof.
  intros Hcols Hrows. unfold get_next_numbers_list, len, iloc.
  rewrite <- Hcols, <- (Forall2_length _ _ _ Hrows).
  destruct (decide (length (values df) ≤ i + 1)); [done|].
  destruct (values df !! (i + 1)) as [r|] eqn:Hr.
  - destruct (Forall2_lookup_l _ _ _ _ _ Hrows Hr) as (r' & -> & Hsame).
    cbn [mbind option_bind].
    pose proof (same_draw_sorted _ _ _ _ Hsame) as Hs.
    destruct gt; exact Hs.
  - apply lookup_ge_None in Hr. rewrite (Forall2_length _ _ _ Hrows) in Hr.
    apply lookup_ge_None in Hr. by rewrite Hr.
Qed.

(** X20. The order in which a draw's primary numbers are stored in its row
    is of no effect: two histories under the same labels whose rows pairwise
    hold the same bonus cell and the same primary numbers up to order give
    the same results in both scans. *)
Theorem stored_order_irrelevant df df' cur top_targets gt :
  columns df = columns df' →
  Forall2 (same_draw gt (columns df)) (values df) (values df') →
  analyze_patterns df cur gt = analyze_patterns df' cur gt ∧
  analyze_splits df cur top_targets gt = analyze_splits df' cur top_targets gt.
Proof.
  intros Hcols Hrows.
  assert (len df = len df') as Hlen by apply (Forall2_length _ _ _ Hrows).
  assert (∀ i, get_next_numbers_list df i gt = get_next_numbers_list df' i gt)
    as Hnext by (intros i; by apply same_draws_next).
  assert (∀ i, match iloc df i, iloc df' i with
               | Some row, Some row' =>
                   get_row_numbers row gt = get_row_numbers row' gt ∧
                   getitem row "Bonus" = getitem row' "Bonus"
               | None, None => True
               | _, _ => False
               end) as Hrow.
  { intros i. unfold iloc. rewrite <- Hcols.
    destruct (values df !! i) as [r|] eqn:Hr.
    - destruct (Forall2_lookup_l _ _ _ _ _ Hrows Hr) as (r' & -> & Hsame).
      simpl. split; [by apply same_draw_row_numbers|by destruct Hsame].
    - apply lookup_ge_None in Hr. rewrite (Forall2_length _ _ _ Hrows) in Hr.
      apply lookup_ge_None in Hr. by rewrite Hr. }
  split.
  - unfold analyze_patterns. rewrite <- Hlen. apply for_each_ext.
    intros c i _. unfold patterns_body. rewrite <- Hcols, <- Hnext.
    specialize (Hrow i).
    destruct (iloc df i) as [row|], (iloc df' i) as [row'|]; try done.
    cbn [mbind option_bind]. destruct Hrow as [-> Hb]. by rewrite Hb.
  - unfold analyze_splits. rewrite <- Hlen. apply for_each_ext.
    intros m i _. unfold splits_body, is_match. rewrite <- Hcols, <- Hnext.
    specialize (Hrow i).
    destruct (iloc df i) as [row|], (iloc df' i) as [row'|]; try done.
    cbn [mbind option_bind]. destruct Hrow as [-> Hb]. by rewrite Hb.
Qed.

Lemma stored_order_irrelevant_witness :
  columns history6 = columns history6 ∧
  Forall2 (same_draw UK49 (columns history6)) (values history6)
    [[6; 5; 4; 3; 2; 1]; [10; 11; 12; 13; 14; 15];
     [22; 21; 20; 3; 2; 1]; [10; 11; 12; 13; 14; 15]]%Z ∧
  analyze_patterns history6 current7 UK49
  = analyze_patterns
      {| columns := columns history6;
         values := [[6; 5; 4; 3; 2; 1]; [10; 11; 12; 13; 14; 15];
                    [22; 21; 20; 3; 2; 1]; [10; 11; 12; 13; 14; 15]]%Z |}
      current7 UK49.
Proof.
  assert (Forall2 (same_draw UK49 (columns history6)) (values history6)
            [[6; 5; 4; 3; 2; 1]; [10; 11; 12; 13; 14; 15];
             [22; 21; 20; 3; 2; 1]; [10; 11; 12; 13; 14; 15]]%Z) as Hrows.
  { repeat constructor; vm_compute; try done;
      apply (bool_decide_unpack _); by vm_compute. }
  split_and!; [done..|].
  by apply (stored_order_irrelevant history6
              {| columns := columns history6;
                 values := [[6; 5; 4; 3; 2; 1]; [10; 11; 12; 13; 14; 15];
                            [22; 21; 20; 3; 2; 1]; [10; 11; 12; 13; 14; 15]]%Z |}
              current7 [] UK49).
Defined.
